(** * pycterra-cli: a shallow embedding of [pycterra_cli/__init__.py]

    The command-line front end derives one sub-command per public method
    of the Picterra [APIClient], from the method's signature, annotations
    and docstring, and then dispatches the parsed command to the client.

    Text is modelled by [string]: a Python [str] whose code points are
    below 256, one [ascii] per code point.  The Python runtime pieces the
    program calls ([str] methods, [uuid.UUID], [re.match] on the one
    pattern of the program, [logging], the per-value conversion of
    [argparse]) are embedded next to the functions of the program that
    use them. *)

From Stdlib Require Import ZArith Ascii String List Bool Lia.
From stdpp Require Import gmap strings.
Import ListNotations.

Local Open Scope string_scope.
Local Open Scope Z_scope.

(** ** Python [str] methods used by the program *)

Module PyStr.

Definition code (c : ascii) : N := N_of_ascii c.

(** [str.isspace] on one code point below 256; the same predicate decides
    [str.strip()] and the regular-expression class [\s]. *)
Definition is_space (c : ascii) : bool :=
  let n := code c in
  ((9 <=? n) && (n <=? 13) || (28 <=? n) && (n <=? 32)
   || (n =? 133) || (n =? 160))%N.

(** The regular-expression class [\w] of a [str] pattern: alphanumeric
    code points and the underscore. *)
Definition is_word (c : ascii) : bool :=
  let n := code c in
  ((48 <=? n) && (n <=? 57) || (65 <=? n) && (n <=? 90)
   || (97 <=? n) && (n <=? 122) || (n =? 95)
   || (n =? 170) || (n =? 178) || (n =? 179) || (n =? 181)
   || (n =? 185) || (n =? 186) || (188 <=? n) && (n <=? 190)
   || (192 <=? n) && (n <=? 214) || (216 <=? n) && (n <=? 246)
   || (248 <=? n) && (n <=? 255))%N.

(** ASCII lower-casing, enough for the case-insensitive literals of the
    program's pattern (letters [o], [n], [e], [f]). *)
Definition lower (c : ascii) : ascii :=
  let n := code c in
  if ((65 <=? n) && (n <=? 90))%N then ascii_of_N (n + 32) else c.

Fixpoint startswith (p s : string) : bool :=
  match p, s with
  | EmptyString, _ => true
  | String a p', String b s' => Ascii.eqb a b && startswith p' s'
  | String _ _, EmptyString => false
  end.

Definition chars (s : string) : list ascii := list_ascii_of_string s.
Definition of_chars (l : list ascii) : string := string_of_list_ascii l.

Definition endswith (p s : string) : bool :=
  startswith (of_chars (rev (chars p))) (of_chars (rev (chars s))).

(** [sub in s] *)
Fixpoint contains (sub s : string) : bool :=
  startswith sub s
  || match s with
     | EmptyString => false
     | String _ s' => contains sub s'
     end.

(** [s.replace(old, new)] for a non-empty [old]: non-overlapping
    occurrences, leftmost first.  [skip] counts the characters of the
    occurrence being replaced that are still to be dropped. *)
Fixpoint replace_from (old new : string) (skip : nat) (s : string) : string :=
  match s with
  | EmptyString => EmptyString
  | String c s' =>
      match skip with
      | S k => replace_from old new k s'
      | O =>
          if startswith old s
          then new ++ replace_from old new (Nat.pred (String.length old)) s'
          else String c (replace_from old new O s')
      end
  end.

Definition replace (old new s : string) : string := replace_from old new O s.

Fixpoint lstrip_by (f : ascii -> bool) (l : list ascii) : list ascii :=
  match l with
  | c :: l' => if f c then lstrip_by f l' else l
  | [] => []
  end.

Definition strip_by (f : ascii -> bool) (s : string) : string :=
  of_chars (rev (lstrip_by f (rev (lstrip_by f (chars s))))).

(** [s.strip()] *)
Definition strip (s : string) : string := strip_by is_space s.

Definition mem_char (set : string) (c : ascii) : bool :=
  existsb (Ascii.eqb c) (chars set).

(** [s.strip(set)] *)
Definition strip_chars (set s : string) : string := strip_by (mem_char set) s.

(** [s.split(sep)] for a one-character separator; the current field is
    accumulated in reverse. *)
Fixpoint split_from (sep : ascii) (cur : list ascii) (s : string) : list string :=
  match s with
  | EmptyString => [of_chars (rev cur)]
  | String c s' =>
      if Ascii.eqb c sep
      then of_chars (rev cur) :: split_from sep [] s'
      else split_from sep (c :: cur) s'
  end.

Definition split (sep : ascii) (s : string) : list string := split_from sep [] s.

(** [sep.join(l)] *)
Fixpoint join (sep : string) (l : list string) : string :=
  match l with
  | [] => EmptyString
  | [x] => x
  | x :: l' => x ++ sep ++ join sep l'
  end.

End PyStr.

(** ** Exceptions and results *)

(** The exception classes the program raises, catches or lets through.
    [ValueError] and [APIError] stand for the class and the classes derived
    from it; [OtherError] stands for any other class derived from
    [Exception]; [KeyboardInterrupt], [GeneratorExit] and [SystemExit]
    derive from [BaseException] only. *)
Inductive exn_class : Type :=
  | APIError
  | ValueError
  | ArgumentTypeError
  | ArgumentError
  | TypeError
  | StopIteration
  | AttributeError
  | IndexError
  | KeyError
  | OtherError (name : string)
  | KeyboardInterrupt
  | GeneratorExit
  | SystemExit.

Record exn : Type := Exn { exn_cls : exn_class; exn_msg : string }.

(** [isinstance(e, Exception)] *)
Definition is_Exception (e : exn) : bool :=
  match exn_cls e with
  | KeyboardInterrupt | GeneratorExit | SystemExit => false
  | _ => true
  end.

(** [isinstance(e, (client.APIError, ValueError))] *)
Definition is_api_or_value_error (e : exn) : bool :=
  match exn_cls e with
  | APIError | ValueError => true
  | _ => false
  end.

Inductive result (A : Type) : Type :=
  | Ok (a : A)
  | Raise (e : exn).
Arguments Ok {A} a.
Arguments Raise {A} e.

Definition bind {A B : Type} (r : result A) (k : A -> result B) : result B :=
  match r with
  | Ok a => k a
  | Raise e => Raise e
  end.

Notation "'let*' x ':=' r 'in' k" := (bind r (fun x => k))
  (at level 10, x name, r at level 100, k at level 200).

(** ** [int(text, base)] for the bases 10 and 16 *)

Module PyInt.

(** The digit table of [int]: the value of a digit character. *)
Definition hex_val (c : ascii) : option Z :=
  let n := Z.of_N (PyStr.code c) in
  if (48 <=? n) && (n <=? 57) then Some (n - 48)
  else if (97 <=? n) && (n <=? 102) then Some (n - 87)
  else if (65 <=? n) && (n <=? 70) then Some (n - 55)
  else None.

Definition digit_val (base : Z) (c : ascii) : option Z :=
  match hex_val c with
  | Some d => if d <? base then Some d else None
  | None => None
  end.

(** White space that [int] skips around the literal. *)
Definition int_space (c : ascii) : bool :=
  let n := PyStr.code c in
  ((9 <=? n) && (n <=? 13) || (n =? 32) || (n =? 133) || (n =? 160))%N.

(** Digits with single underscores between them.  The result is the
    value, the number of digits read and the unread rest; [None] when two
    underscores meet or the run ends on an underscore. *)
Fixpoint scan_digits (base : Z) (prev_us : bool) (acc : Z) (n : nat) (s : string)
  : option (Z * nat * string) :=
  match s with
  | EmptyString => if prev_us then None else Some (acc, n, s)
  | String c s' =>
      if Ascii.eqb c "_"
      then (if prev_us then None else scan_digits base true acc n s')
      else match digit_val base c with
           | Some d => scan_digits base false (base * acc + d) (S n) s'
           | None => if prev_us then None else Some (acc, n, s)
           end
  end.

Definition skip_space (s : string) : string :=
  PyStr.of_chars (PyStr.lstrip_by int_space (PyStr.chars s)).

Definition take_sign (s : string) : Z * string :=
  match s with
  | String c s' =>
      if Ascii.eqb c "+" then (1, s')
      else if Ascii.eqb c "-" then (-1, s')
      else (1, s)
  | EmptyString => (1, s)
  end.

(** The prefix [0x] or [0X] of base 16, and one underscore after it. *)
Definition take_prefix (base : Z) (s : string) : string :=
  match s with
  | String z (String x s') =>
      if Ascii.eqb z "0" && (base =? 16) && (Ascii.eqb x "x" || Ascii.eqb x "X")
      then match s' with
           | String u s'' => if Ascii.eqb u "_" then s'' else s'
           | EmptyString => s'
           end
      else s
  | _ => s
  end.

(** [int(text, base)]; [None] is [ValueError]. *)
Definition int_base (base : Z) (text : string) : option Z :=
  let '(sign, s) := take_sign (skip_space text) in
  let s := take_prefix base s in
  if PyStr.startswith "_" s then None
  else match scan_digits base false 0 O s with
       | Some (v, S _, rest) =>
           match skip_space rest with
           | EmptyString => Some (sign * v)
           | _ => None
           end
       | _ => None
       end.

End PyInt.

(** ** [uuid.UUID(text, version=...)] *)

Module Uuid.

Definition int16 (text : string) : option Z := PyInt.int_base 16 text.

(** The constructor [UUID(hex, version=version)]: the 128-bit integer of
    the object it builds, or the [ValueError] it raises. *)
Definition UUID (hex : string) (version : option Z) : result Z :=
  let hex := PyStr.replace "uuid:" "" (PyStr.replace "urn:" "" hex) in
  let hex := PyStr.replace "-" "" (PyStr.strip_chars "{}" hex) in
  if negb (Nat.eqb (String.length hex) 32)
  then Raise (Exn ValueError "badly formed hexadecimal UUID string")
  else match int16 hex with
       | None => Raise (Exn ValueError "invalid literal for int() with base 16")
       | Some i =>
           if negb ((0 <=? i) && (i <? Z.shiftl 1 128))
           then Raise (Exn ValueError "int is out of range (need a 128-bit value)")
           else match version with
                | None => Ok i
                | Some v =>
                    if negb ((1 <=? v) && (v <=? 5))
                    then Raise (Exn ValueError "illegal version number")
                    else
                      let i := Z.land i (Z.lnot (Z.shiftl 49152 48)) in
                      let i := Z.lor i (Z.shiftl 32768 48) in
                      let i := Z.land i (Z.lnot (Z.shiftl 61440 64)) in
                      Ok (Z.lor i (Z.shiftl v 76))
                end
       end.

End Uuid.

(** ** The helpers of the program *)

Definition _cmd_arg_to_api_arg (cmd : string) : string := PyStr.replace "-" "_" cmd.

Definition api_arg_to_cmd_arg (fn : string) : string := PyStr.replace "_" "-" fn.

(** [uuid_type(uuid_to_test, version=4)]: the text itself when [UUID]
    accepts it, [ArgumentTypeError] when [UUID] raises [ValueError]. *)
Definition uuid_type_v (uuid_to_test : string) (version : Z) : result string :=
  match Uuid.UUID uuid_to_test (Some version) with
  | Ok _ => Ok uuid_to_test
  | Raise e =>
      match exn_cls e with
      | ValueError =>
          Raise (Exn ArgumentTypeError ("invalid UUID value: '" ++ uuid_to_test ++ "'"))
      | _ => Raise e
      end
  end.

Definition uuid_type (uuid_to_test : string) : result string :=
  uuid_type_v uuid_to_test 4.

(** ** Values, annotations and signatures *)

(** A float: the finite value [m * 2 ^ e], an infinity or a NaN. *)
Inductive pyfloat : Type :=
  | FFinite (m e : Z)
  | FInf (negative : bool)
  | FNaN.

(** Python values that reach the program as defaults, literals, parsed
    arguments and results; an object of any other class is carried by its
    [repr]. *)
#[warnings="-register-all"]
Inductive value : Type :=
  | VNone
  | VBool (b : bool)
  | VInt (z : Z)
  | VFloat (f : pyfloat)
  | VStr (s : string)
  | VList (items : list value)
  | VObj (repr : string).

(** A parameter annotation as [inspect.signature] reports it.  [AEmpty] is
    [inspect.Parameter.empty]; [AUnion] covers [typing.Union[...]],
    [typing.Optional[...]] and [X | Y]; [AGeneric] is any other
    parametrised form ([List[int]], [Dict[str, None]], ...); [AClass] any
    other object without type arguments. *)
#[warnings="-register-all"]
Inductive annotation : Type :=
  | AEmpty
  | ABool
  | AInt
  | AFloat
  | AStr
  | ANoneType
  | AClass (name : string)
  | AUnion (args : list annotation)
  | ALiteral (vals : list value)
  | AGeneric (name : string) (args : list annotation).

Record parameter : Type := MkParameter {
  p_name : string;
  p_annotation : annotation;
  p_default : option value   (* [None] is [inspect.Parameter.empty] *)
}.

(** A member of the client type as [inspect.getmembers] lists it: its
    attribute name, the parameters of its signature (receiver included)
    and its [__doc__]. *)
Record member : Type := Member {
  m_name : string;
  m_params : list parameter;
  m_doc : option string
}.

Definition is_NoneType (a : annotation) : bool :=
  match a with ANoneType => true | _ => false end.

(** [typing.get_args(field)] restricted to its type arguments; the
    arguments of a [Literal] are values, none of which is [type(None)]. *)
Definition get_args (field : annotation) : list annotation :=
  match field with
  | AUnion args | AGeneric _ args => args
  | _ => []
  end.

Definition origin_is_Union (field : annotation) : bool :=
  match field with AUnion _ => true | _ => false end.

(** [is_optional(field)]: [Ok None] is the [False] it returns, [Ok (Some t)]
    the first argument that is not [type(None)]; [next] raises
    [StopIteration] when there is none. *)
Definition is_optional (field : annotation) : result (option annotation) :=
  let args := get_args field in
  if (origin_is_Union field && existsb is_NoneType args)
     || ((1 <? length args)%nat && existsb is_NoneType args)
  then match List.filter (fun a => negb (is_NoneType a)) args with
       | a :: _ => Ok (Some a)
       | [] => Raise (Exn StopIteration "")
       end
  else Ok None.

(** ** The descriptor of one argument *)

Inductive action_arg : Type := BooleanOptionalAction.

(** The [type] entry of [subcommand_args]: the function [uuid_type] or a
    type object used as converter. *)
Inductive type_arg : Type :=
  | TyUuidType
  | TyObject (a : annotation).

(** What [commands_map] records for a parameter:
    [subcommand_args.get("type", subcommand_args.get("action", None))]. *)
Inductive coercion : Type :=
  | ByType (t : type_arg)
  | ByAction (a : action_arg).

(** [subcommand_args], one optional field per key the program may set
    ([required] is always set), with the option strings of the argument. *)
Record subcommand_args : Type := SubcommandArgs {
  required : bool;
  default : option value;
  action : option action_arg;
  type_ : option type_arg;
  help : option string;
  choices : option (list value);
  name_or_flags : list string
}.

Definition recorded_coercion (d : subcommand_args) : option coercion :=
  match type_ d with
  | Some t => Some (ByType t)
  | None => match action d with
            | Some a => Some (ByAction a)
            | None => None
            end
  end.

(** [t.__name__] *)
Definition annotation_name (a : annotation) : string :=
  match a with
  | AEmpty => "_empty"
  | ABool => "bool"
  | AInt => "int"
  | AFloat => "float"
  | AStr => "str"
  | ANoneType => "NoneType"
  | AClass n => n
  | AUnion _ => "Union"
  | ALiteral _ => "Literal"
  | AGeneric n _ => n
  end.

Definition type_arg_name (t : type_arg) : string :=
  match t with
  | TyUuidType => "uuid_type"
  | TyObject a => annotation_name a
  end.

Definition isinstance_int (v : value) : bool :=
  match v with VInt _ | VBool _ => true | _ => false end.
Definition isinstance_float (v : value) : bool :=
  match v with VFloat _ => true | _ => false end.
Definition isinstance_str (v : value) : bool :=
  match v with VStr _ => true | _ => false end.

(** [param_type == typing.Optional[bool]]: a union whose arguments are,
    as a set, [bool] and [type(None)]. *)
Definition eq_Optional_bool (a : annotation) : bool :=
  match a with
  | AUnion args =>
      forallb (fun x => match x with ABool | ANoneType => true | _ => false end) args
      && existsb (fun x => match x with ABool => true | _ => false end) args
      && existsb is_NoneType args
  | _ => false
  end.

(** ** The pattern [.*one of \(?\s?((?:'?\w+'?,?\s?)+)] *)

Module OneOf.

Definition opt (f : ascii -> bool) (l : list ascii) : list ascii * list ascii :=
  match l with
  | c :: l' => if f c then ([c], l') else ([], l)
  | [] => ([], [])
  end.

Fixpoint span (f : ascii -> bool) (l : list ascii) : list ascii * list ascii :=
  match l with
  | c :: l' =>
      if f c then let '(w, r) := span f l' in (c :: w, r) else ([], l)
  | [] => ([], [])
  end.

Definition is_quote (c : ascii) : bool := Ascii.eqb c "'".
Definition is_comma (c : ascii) : bool := Ascii.eqb c ",".
Definition is_lparen (c : ascii) : bool := Ascii.eqb c "(".

(** One round of ['?\w+'?,?\s?]: the text it consumes and the rest. *)
Definition token (l : list ascii) : option (list ascii * list ascii) :=
  let '(q1, l1) := opt is_quote l in
  let '(w, l2) := span PyStr.is_word l1 in
  match w with
  | [] => None
  | _ :: _ =>
      let '(q2, l3) := opt is_quote l2 in
      let '(c, l4) := opt is_comma l3 in
      let '(sp, l5) := opt PyStr.is_space l4 in
      Some ((q1 ++ w ++ q2 ++ c ++ sp)%list, l5)
  end.

(** The greedy repetition of [token]; every round consumes a character,
    so [length l] rounds are never exceeded. *)
Fixpoint tokens (fuel : nat) (l : list ascii) : list ascii :=
  match fuel with
  | O => []
  | S fuel' =>
      match token l with
      | Some (t, rest) => (t ++ tokens fuel' rest)%list
      | None => []
      end
  end.

(** The literal [one of ] under [re.I]. *)
Fixpoint literal_ci (lit : list ascii) (l : list ascii) : option (list ascii) :=
  match lit, l with
  | [], _ => Some l
  | a :: lit', c :: l' =>
      if Ascii.eqb (PyStr.lower c) a then literal_ci lit' l' else None
  | _ :: _, [] => None
  end.

(** The pattern after [.*], tried at the head of [l]: group 1. *)
Definition tail_at (l : list ascii) : option (list ascii) :=
  match literal_ci (PyStr.chars "one of ") l with
  | None => None
  | Some l1 =>
      let '(_, l2) := opt is_lparen l1 in
      let '(_, l3) := opt PyStr.is_space l2 in
      match tokens (length l3) l3 with
      | [] => None
      | g => Some g
      end
  end.

(** [.*] is greedy and does not cross a line feed: the rightmost start
    at which the tail matches wins. *)
Fixpoint search (l : list ascii) : option (list ascii) :=
  match l with
  | [] => tail_at []
  | c :: l' =>
      if Ascii.eqb c "010"
      then tail_at l
      else match search l' with
           | Some g => Some g
           | None => tail_at l
           end
  end.

(** [re.match(pattern, text, re.I)]: [group(1)] of the match, if any. *)
Definition re_match (text : string) : option string :=
  option_map PyStr.of_chars (search (PyStr.chars text)).

End OneOf.

(** ** [parse_args]: building the commands *)

Definition is_AEmpty (a : annotation) : bool :=
  match a with AEmpty => true | _ => false end.
Definition is_ABool (a : annotation) : bool :=
  match a with ABool => true | _ => false end.
Definition is_AStr (a : annotation) : bool :=
  match a with AStr => true | _ => false end.
Definition in_int_float_str (a : annotation) : bool :=
  match a with AInt | AFloat | AStr => true | _ => false end.

(** The loop [for t in (int, float, str)] over the literals of a
    [Literal]. *)
Definition literal_type (vals : list value) : option type_arg :=
  if forallb isinstance_int vals then Some (TyObject AInt)
  else if forallb isinstance_float vals then Some (TyObject AFloat)
  else if forallb isinstance_str vals then Some (TyObject AStr)
  else None.

(** What the [if]/[elif] chain on [param_type] leaves behind: the
    [action] entry, the [type] entry and the variable [choices]. *)
Record inferred : Type := Inferred {
  i_action : option action_arg;
  i_type : option type_arg;
  i_choices : option (list value)
}.

Definition infer (param : string) (param_type : annotation) : result inferred :=
  if is_AEmpty param_type then Ok (Inferred None None None)
  else if is_ABool param_type || eq_Optional_bool param_type
  then Ok (Inferred (Some BooleanOptionalAction) None None)
  else if is_AStr param_type && PyStr.endswith "_id" param
  then Ok (Inferred None (Some TyUuidType) None)
  else if in_int_float_str param_type
  then Ok (Inferred None (Some (TyObject param_type)) None)
  else
    let* o := is_optional param_type in
    match o with
    | Some t => Ok (Inferred None (Some (TyObject t)) None)
    | None =>
        match param_type with
        | ALiteral vals => Ok (Inferred None (literal_type vals) (Some vals))
        | _ => Ok (Inferred None None None)
        end
    end.

(** Truth value of the variable [choices]. *)
Definition truthy (c : option (list value)) : bool :=
  match c with
  | Some (_ :: _) => true
  | _ => false
  end.

(** The list comprehension that turns group 1 into choices. *)
Definition choices_of_group (g : string) : list value :=
  map (fun s => VStr (PyStr.strip s)) (PyStr.split "," (PyStr.replace "'" "" g)).

Definition type_suffix (t : option type_arg) : string :=
  match t with
  | Some t => " [" ++ type_arg_name t ++ "]"
  | None => ""
  end.

(** The [try] block on the docstring: the [help] entry and the variable
    [choices] after it. *)
Definition help_and_choices (docstring_lines : list string) (param : string)
    (ty : option type_arg) (choices0 : option (list value))
  : option string * option (list value) :=
  match find (PyStr.startswith param) docstring_lines with
  | None => (None, choices0)
  | Some param_doc_line =>
      match PyStr.split ":" param_doc_line with
      | _ :: field :: _ =>
          if negb (truthy choices0)
          then
            let h := PyStr.strip field ++ type_suffix ty in
            match OneOf.re_match h with
            | Some g => (Some h, Some (choices_of_group g))
            | None => (Some h, choices0)
            end
          else (None, choices0)
      | _ => (None, choices0)
      end
  end.

(** [','.join(choices)], evaluated for the message of line 211. *)
Definition join_choices (l : list value) : result string :=
  if forallb isinstance_str l
  then Ok (PyStr.join "," (map (fun v => match v with VStr s => s | _ => "" end) l))
  else Raise (Exn TypeError "sequence item: expected str instance").

Definition initial (param : string) : result ascii :=
  match param with
  | String c _ => Ok c
  | EmptyString => Raise (Exn IndexError "string index out of range")
  end.

Definition make_flags (different_initials : bool) (param : string) : result (list string) :=
  let* c := initial param in
  let long := "--" ++ api_arg_to_cmd_arg param in
  if different_initials && negb (Ascii.eqb c "v") && negb (Ascii.eqb c "h")
  then Ok [long; String "-" (String c EmptyString)]
  else Ok [long].

(** The body of [for param in parameters_names], up to the call of
    [add_argument]: the finished [subcommand_args].  The records the body
    logs are left out, but the message of line 211 is still evaluated, and
    its [join] raises on a choice that is not a string.  [add_argument]
    itself is taken to accept the descriptor. *)
Definition parse_param (docstring_lines : list string)
    (parameters_have_different_initials : bool) (p : parameter)
  : result subcommand_args :=
  let param := p_name p in
  let param_has_default := match p_default p with Some _ => true | None => false end in
  let param_is_required := negb param_has_default in
  let* i := infer param (p_annotation p) in
  let '(h, choices1) := help_and_choices docstring_lines param (i_type i) (i_choices i) in
  let* recorded :=
    (if truthy choices1
     then let* _ := join_choices (match choices1 with Some l => l | None => [] end) in
          Ok choices1
     else Ok None) in
  let* flags := make_flags parameters_have_different_initials param in
  Ok {| required := param_is_required;
        default := p_default p;
        action := i_action i;
        type_ := i_type i;
        help := h;
        choices := recorded;
        name_or_flags := flags |}.

(** The docstring, cut into stripped non-empty lines with [%] doubled. *)
Definition docstring_lines_of (doc : option string) : list string :=
  match doc with
  | None | Some EmptyString => []
  | Some d =>
      map (fun x => PyStr.replace "%" "%%" (PyStr.strip x))
          (List.filter (fun x => negb (Nat.eqb (String.length (PyStr.strip x)) 0))
                  (PyStr.split "010" d))
  end.

Definition cmd_help_of (docstring_lines : list string) : option string :=
  option_map PyStr.strip
    (find (fun d => negb (PyStr.contains "beta" d) && negb (PyStr.contains "experimental" d))
          docstring_lines).

Fixpoint all_distinct (l : list ascii) : bool :=
  match l with
  | [] => true
  | c :: l' => negb (existsb (Ascii.eqb c) l') && all_distinct l'
  end.

Fixpoint mapM {A B : Type} (f : A -> result B) (l : list A) : result (list B) :=
  match l with
  | [] => Ok []
  | a :: l' => let* b := f a in let* bs := mapM f l' in Ok (b :: bs)
  end.

(** One sub-command: what [add_parser] and the [add_argument] calls of one
    method register, in order. *)
Record subcommand : Type := Subcommand {
  c_name : string;
  c_help : option string;
  c_args : list (string * subcommand_args)
}.

Definition is_public (name : string) : bool := negb (PyStr.startswith "_" name).

(** The body of [for m in members] for a method that is not skipped. *)
Definition parse_member (m : member) : result subcommand :=
  let parameters_names :=
    List.filter (fun p => negb (String.eqb (p_name p) "self")) (m_params m) in
  let* param_initials := mapM (fun p => initial (p_name p)) parameters_names in
  let parameters_have_different_initials := all_distinct param_initials in
  let docstring_lines := docstring_lines_of (m_doc m) in
  let* args :=
    mapM (fun p =>
            let* a := parse_param docstring_lines parameters_have_different_initials p in
            Ok (p_name p, a))
         parameters_names in
  Ok {| c_name := api_arg_to_cmd_arg (m_name m);
        c_help := cmd_help_of docstring_lines;
        c_args := args |}.

(** [commands_map]: command name to parameter name to recorded coercion. *)
Abbreviation commands_map_t := (gmap string (gmap string (option coercion))).

Definition coercions_of (c : subcommand) : gmap string (option coercion) :=
  fold_left (fun d pa => <[fst pa := recorded_coercion (snd pa)]> d) (c_args c) ∅.

(** The state the loop over the members builds: the sub-parsers of the
    parser of this call, and the module-level [commands_map]. *)
Record registry : Type := Registry {
  subparsers : list subcommand;
  commands_map : commands_map_t
}.

Fixpoint build (members : list member) (r : registry) : result registry :=
  match members with
  | [] => Ok r
  | m :: rest =>
      if is_public (m_name m)
      then
        let* c := parse_member m in
        build rest {| subparsers := subparsers r ++ [c];
                      commands_map := <[c_name c := coercions_of c]> (commands_map r) |}
      else build rest r
  end.

(** The registry a call of [parse_args] builds: a fresh parser, and the
    [commands_map] the process holds so far. *)
Definition build_registry (members : list member) (cm : commands_map_t) : result registry :=
  build members {| subparsers := []; commands_map := cm |}.

(** ** The world outside the program *)

Inductive returned : Type :=
  | RetNone                                  (* the method returned [None] *)
  | RetValue (v : value)                     (* any other value *)
  | RetPage (items : result (list value)).   (* a [client.ResultsPage]; [list(res)] *)

Inductive call_result : Type :=
  | Returns (r : returned)
  | Throws (e : exn).

(** The environment of one process and the client library, which the
    program treats as opaque. *)
Record world : Type := World {
  api_key_set : bool;                        (* ["PICTERRA_API_KEY" in os.environ] *)
  client_init : option exn;                  (* what [APIClient()] raises, if anything *)
  client_getattr : string -> option exn;     (* what [getattr(api_client, name)] raises *)
  client_call : string -> gmap string value -> call_result;
  float_of_text : string -> option pyfloat;  (* [float(text)]; [None] is [ValueError] *)
  call_type : annotation -> string -> option value
    (* a call of any other type object on the text; [None] is a
       [TypeError] or [ValueError] *)
}.

(** ** [logging] *)

Definition DEBUG : Z := 10.
Definition INFO : Z := 20.
Definition WARNING : Z := 30.
Definition ERROR : Z := 40.
Definition CRITICAL : Z := 50.
Definition NOTSET : Z := 0.

Inductive log_msg : Type :=
  | MsgLoggingLevel
  | MsgHandlingCommand
  | MsgMissingApiKey
  | MsgParameters
  | MsgInstanciated
  | MsgExecuting (command_name : string)
  | MsgReturnedSomething
  | MsgReturnedNothing
  | MsgApiError (err : exn)
  | MsgException (ex : exn).

(** The level of the module's [logger] and of the root logger, whose
    handler writes the records. *)
Record log_state : Type := LogState {
  logger_level : Z;
  root_level : Z
}.

(** After [logging.getLogger(__name__)] and
    [logging.basicConfig(level=logging.CRITICAL)] in a fresh process. *)
Definition initial_log_state : log_state :=
  {| logger_level := NOTSET; root_level := CRITICAL |}.

(** [logger.getEffectiveLevel()] *)
Definition effective_level (st : log_state) : Z :=
  if logger_level st =? NOTSET then root_level st else logger_level st.

Definition setLevel (lvl : Z) (st : log_state) : log_state :=
  {| logger_level := lvl; root_level := root_level st |}.

(** What the process does that can be observed. *)
Inductive event : Type :=
  | EvSetLevel (lvl : Z)
  | EvLog (lvl : Z) (msg : log_msg)          (* a record written by the handler *)
  | EvConstructClient
  | EvGetMethod (method_name : string)
  | EvCall (method_name : string) (args : gmap string value)
  | EvMaterialize
  | EvPrettyPrint (v : value)
  | EvPrintHelp.

(** [logger.log(lvl, msg)]: the record is written when the level is
    enabled. *)
Definition log (st : log_state) (lvl : Z) (msg : log_msg) : list event :=
  if effective_level st <=? lvl then [EvLog lvl msg] else [].

Inductive exit_code : Type :=
  | ExitMessage (text : string)   (* [sys.exit(text)]: text on stderr, status 1 *)
  | ExitStatus (n : Z).           (* [sys.exit(n)] *)

Inductive outcome : Type :=
  | Returned
  | Exited (code : exit_code)
  | Uncaught (e : exn).

(** The status of the process when [main] ends this way; an uncaught
    exception ends it with a traceback, which is not given a number here. *)
Definition exit_status (o : outcome) : option Z :=
  match o with
  | Returned => Some 0
  | Exited (ExitMessage _) => Some 1
  | Exited (ExitStatus n) => Some n
  | Uncaught _ => None
  end.

(** ** [_handle_command] *)

(** The parsed [Namespace]: the chosen command, the count of [-v] and one
    attribute per argument of the command. *)
Record options : Type := Options {
  command : option string;
  verbose : Z;
  attrs : gmap string value
}.

Definition red (text : string) : string :=
  String "027" "[91m" ++ text ++ String "027" "[00m".

Definition apply_verbosity (v : Z) (st : log_state) : log_state * list event :=
  if v =? 0 then (st, [])
  else if 3 <=? v then (setLevel DEBUG st, [EvSetLevel DEBUG])
  else if v =? 2 then (setLevel INFO st, [EvSetLevel INFO])
  else if v =? 1 then (setLevel WARNING st, [EvSetLevel WARNING])
  else (st, []).

(** [{param: getattr(options, param) for param in param_names}] *)
Definition collect_args (param_names : gmap string (option coercion)) (o : options)
  : result (gmap string value) :=
  if map_fold (fun k _ acc => acc && bool_decide (is_Some (attrs o !! k))) true param_names
  then Ok (map_imap (fun k _ => attrs o !! k) param_names)
  else Raise (Exn AttributeError "'Namespace' object has no such attribute").

(** The body of the [try] statement: its events and how it ends. *)
Definition guarded_call (w : world) (st : log_state) (o : options)
    (command_name method_name : string) (param_names : gmap string (option coercion))
  : list event * result unit :=
  match client_getattr w method_name with
  | Some e => ([EvGetMethod method_name], Raise e)
  | None =>
      match collect_args param_names o with
      | Raise e => ([EvGetMethod method_name], Raise e)
      | Ok args =>
          let t := ([EvGetMethod method_name] ++ log st INFO (MsgExecuting command_name)
                    ++ [EvCall method_name args])%list in
          match client_call w method_name args with
          | Throws e => (t, Raise e)
          | Returns RetNone => ((t ++ log st INFO MsgReturnedNothing)%list, Ok tt)
          | Returns (RetValue v) =>
              ((t ++ log st INFO MsgReturnedSomething ++ [EvPrettyPrint v])%list, Ok tt)
          | Returns (RetPage (Ok items)) =>
              ((t ++ log st INFO MsgReturnedSomething
                  ++ [EvMaterialize; EvPrettyPrint (VList items)])%list, Ok tt)
          | Returns (RetPage (Raise e)) =>
              ((t ++ log st INFO MsgReturnedSomething ++ [EvMaterialize])%list, Raise e)
          end
      end
  end.

Definition missing_key_message : string :=
  "Missing 'PICTERRA_API_KEY' environment variable".

Definition _handle_command (w : world) (cm : commands_map_t) (st0 : log_state) (o : options)
  : log_state * list event * outcome :=
  let '(st, t0) := apply_verbosity (verbose o) st0 in
  let t1 := (t0 ++ log st DEBUG MsgLoggingLevel ++ log st DEBUG MsgHandlingCommand)%list in
  if negb (api_key_set w)
  then (st, (t1 ++ log st ERROR MsgMissingApiKey)%list,
        Exited (ExitMessage (red missing_key_message)))
  else
    match command o with
    | None => (st, t1, Uncaught (Exn KeyError "None"))
    | Some command_name =>
        match cm !! command_name with
        | None => (st, t1, Uncaught (Exn KeyError command_name))
        | Some param_names =>
            let t2 := (t1 ++ log st DEBUG MsgParameters ++ [EvConstructClient])%list in
            match client_init w with
            | Some e => (st, t2, Uncaught e)
            | None =>
                let t3 := (t2 ++ log st DEBUG MsgInstanciated)%list in
                let method_name := _cmd_arg_to_api_arg command_name in
                let '(t4, r) := guarded_call w st o command_name method_name param_names in
                match r with
                | Ok _ => (st, (t3 ++ t4)%list, Returned)
                | Raise err =>
                    if is_api_or_value_error err
                    then (st, (t3 ++ t4 ++ log st ERROR (MsgApiError err))%list,
                          Exited (ExitMessage (red (exn_msg err))))
                    else if is_Exception err
                    then (st, (t3 ++ t4 ++ log st CRITICAL (MsgException err))%list, Returned)
                    else (st, (t3 ++ t4)%list, Uncaught err)
                end
            end
        end
    end.

(** ** [argparse]: what the parser of one sub-command does with its options *)

(** A command line after [argparse] has recognised its option strings:
    the chosen sub-command and, in order, the occurrences of its options.
    [OccToggle] is a flag of a [BooleanOptionalAction] with the truth value
    it stores, [OccValue] an option with its argument string.  Requests
    for help or the version are not command lines of this model. *)
Inductive occurrence : Type :=
  | OccVerbose
  | OccToggle (param : string) (on : bool)
  | OccValue (param : string) (arg_string : string).

Record cmdline : Type := Cmdline {
  cl_command : option string;
  cl_occs : list occurrence
}.

Definition float_eq_Z (f : pyfloat) (z : Z) : bool :=
  match f with
  | FFinite m e => if 0 <=? e then m * 2 ^ e =? z else m =? z * 2 ^ (- e)
  | _ => false
  end.

Definition float_eq (f g : pyfloat) : bool :=
  match f, g with
  | FFinite m1 e1, FFinite m2 e2 =>
      if e1 <=? e2 then m1 =? m2 * 2 ^ (e2 - e1) else m1 * 2 ^ (e1 - e2) =? m2
  | FInf a, FInf b => Bool.eqb a b
  | _, _ => false
  end.

(** [a == b] on values; objects of other classes are told apart by their
    [repr]. *)
Fixpoint py_eq (a b : value) {struct a} : bool :=
  match a, b with
  | VNone, VNone => true
  | VBool x, VBool y => Bool.eqb x y
  | VBool x, VInt z | VInt z, VBool x => Z.b2z x =? z
  | VInt x, VInt y => x =? y
  | VFloat f, VFloat g => float_eq f g
  | VFloat f, VInt z | VInt z, VFloat f => float_eq_Z f z
  | VFloat f, VBool x | VBool x, VFloat f => float_eq_Z f (Z.b2z x)
  | VStr s, VStr t => String.eqb s t
  | VList l, VList m =>
      (fix go (l m : list value) : bool :=
         match l, m with
         | [], [] => true
         | x :: l', y :: m' => py_eq x y && go l' m'
         | _, _ => false
         end) l m
  | VObj r, VObj q => String.eqb r q
  | _, _ => false
  end.

Definition usage_error {A : Type} (message : string) : result A :=
  Raise (Exn ArgumentError message).

(** [_get_value]: the argument string through the [type] of the action.
    [ArgumentTypeError], [TypeError] and [ValueError] of the converter
    become [ArgumentError]. *)
Definition get_value (w : world) (t : option type_arg) (arg_string : string)
  : result value :=
  match t with
  | None => Ok (VStr arg_string)
  | Some TyUuidType =>
      match uuid_type arg_string with
      | Ok s => Ok (VStr s)
      | Raise e =>
          match exn_cls e with
          | ArgumentTypeError => usage_error (exn_msg e)
          | TypeError | ValueError => usage_error "invalid uuid_type value"
          | _ => Raise e
          end
      end
  | Some (TyObject AStr) => Ok (VStr arg_string)
  | Some (TyObject AInt) =>
      match PyInt.int_base 10 arg_string with
      | Some z => Ok (VInt z)
      | None => usage_error "invalid int value"
      end
  | Some (TyObject AFloat) =>
      match float_of_text w arg_string with
      | Some f => Ok (VFloat f)
      | None => usage_error "invalid float value"
      end
  | Some (TyObject ABool) => Ok (VBool (negb (String.eqb arg_string "")))
  | Some (TyObject a) =>
      match call_type w a arg_string with
      | Some v => Ok v
      | None => usage_error "invalid value"
      end
  end.

(** [_check_value]: the converted value against [choices]. *)
Definition check_value (a : subcommand_args) (v : value) : result unit :=
  match choices a with
  | Some l => if existsb (py_eq v) l then Ok tt else usage_error "invalid choice"
  | None => Ok tt
  end.

Fixpoint lookup_arg (args : list (string * subcommand_args)) (param : string)
  : option subcommand_args :=
  match args with
  | [] => None
  | (p, a) :: rest => if String.eqb p param then Some a else lookup_arg rest param
  end.

(** The namespace while the options are consumed, with the arguments seen
    so far. *)
Record parsing : Type := Parsing {
  ns_verbose : Z;
  ns_attrs : gmap string value;
  ns_seen : list string
}.

Definition consume (w : world) (args : list (string * subcommand_args))
    (ns : parsing) (occ : occurrence) : result parsing :=
  match occ with
  | OccVerbose =>
      Ok {| ns_verbose := ns_verbose ns + 1; ns_attrs := ns_attrs ns; ns_seen := ns_seen ns |}
  | OccToggle param on =>
      match lookup_arg args param with
      | Some a =>
          match action a with
          | Some BooleanOptionalAction =>
              Ok {| ns_verbose := ns_verbose ns;
                    ns_attrs := <[param := VBool on]> (ns_attrs ns);
                    ns_seen := param :: ns_seen ns |}
          | None => usage_error "expected one argument"
          end
      | None => usage_error "unrecognized arguments"
      end
  | OccValue param arg_string =>
      match lookup_arg args param with
      | Some a =>
          match action a with
          | Some BooleanOptionalAction => usage_error "ignored explicit argument"
          | None =>
              let* v := get_value w (type_ a) arg_string in
              let* _ := check_value a v in
              Ok {| ns_verbose := ns_verbose ns;
                    ns_attrs := <[param := v]> (ns_attrs ns);
                    ns_seen := param :: ns_seen ns |}
          end
      | None => usage_error "unrecognized arguments"
      end
  end.

Fixpoint consume_all (w : world) (args : list (string * subcommand_args))
    (ns : parsing) (occs : list occurrence) : result parsing :=
  match occs with
  | [] => Ok ns
  | occ :: rest => let* ns' := consume w args ns occ in consume_all w args ns' rest
  end.

(** The attributes before any option is consumed: the [default] of every
    argument, [None] where there is none. *)
Definition initial_attrs (args : list (string * subcommand_args)) : gmap string value :=
  fold_left
    (fun m pa => <[fst pa := match default (snd pa) with Some v => v | None => VNone end]> m)
    args ∅.

(** After the options: an argument that was not seen is an error when it
    is required; otherwise a default that is a string goes through the
    converter. *)
Fixpoint finish (w : world) (args : list (string * subcommand_args)) (seen : list string)
    (attrs : gmap string value) (missing : bool) : result (gmap string value) :=
  match args with
  | [] =>
      if missing then usage_error "the following arguments are required" else Ok attrs
  | (p, a) :: rest =>
      if existsb (String.eqb p) seen then finish w rest seen attrs missing
      else if required a then finish w rest seen attrs true
      else match default a with
           | Some (VStr s) =>
               let* v := get_value w (type_ a) s in
               finish w rest seen (<[p := v]> attrs) missing
           | _ => finish w rest seen attrs missing
           end
  end.

(** [parser.parse_args(args)] on the parser built by this call. *)
Definition argparse (w : world) (r : registry) (argv : cmdline) : result options :=
  match cl_command argv with
  | None => Ok {| command := None; verbose := 0; attrs := ∅ |}
  | Some name =>
      match find (fun c => String.eqb (c_name c) name) (rev (subparsers r)) with
      | None => usage_error "invalid choice"
      | Some c =>
          let* ns := consume_all w (c_args c)
                       {| ns_verbose := 0; ns_attrs := initial_attrs (c_args c); ns_seen := [] |}
                       (cl_occs argv) in
          let* final := finish w (c_args c) (ns_seen ns) (ns_attrs ns) false in
          Ok {| command := Some name; verbose := ns_verbose ns; attrs := final |}
      end
  end.

(** ** [parse_args] and [main] *)

(** What a process keeps between calls of [parse_args]: the levels of the
    loggers and the module-level [commands_map]. *)
Record process : Type := Process {
  p_log : log_state;
  p_commands_map : commands_map_t
}.

Definition fresh_process : process :=
  {| p_log := initial_log_state; p_commands_map := ∅ |}.

(** [parse_args(args)] for the client type whose members are [members]:
    build the commands, parse, then call [args.func(args)]. *)
Definition parse_args (w : world) (members : list member) (ps : process) (argv : cmdline)
  : process * list event * outcome :=
  match build_registry members (p_commands_map ps) with
  | Raise e => (ps, [], Uncaught e)
  | Ok r =>
      let ps1 := {| p_log := p_log ps; p_commands_map := commands_map r |} in
      match argparse w r argv with
      | Raise e =>
          match exn_cls e with
          | ArgumentError => (ps1, [], Exited (ExitStatus 2))
          | _ => (ps1, [], Uncaught e)
          end
      | Ok o =>
          match command o with
          | None => (ps1, [EvPrintHelp], Returned)
          | Some _ =>
              let '(st, t, out) := _handle_command w (commands_map r) (p_log ps) o in
              ({| p_log := st; p_commands_map := commands_map r |}, t, out)
          end
      end
  end.

(** [main()] in a fresh process. *)
Definition main (w : world) (members : list member) (argv : cmdline) : list event * outcome :=
  let '(_, t, out) := parse_args w members fresh_process argv in (t, out).

(** ** Reading a run *)

Definition state_of {S : Type} (r : S * list event * outcome) : S := fst (fst r).
Definition trace_of {S : Type} (r : S * list event * outcome) : list event := snd (fst r).
Definition outcome_of {S : Type} (r : S * list event * outcome) : outcome := snd r.

(** The events in which the client library is touched: construction,
    method lookup, the call and the paging of its result. *)
Definition is_client_event (ev : event) : bool :=
  match ev with
  | EvConstructClient | EvGetMethod _ | EvCall _ _ | EvMaterialize => true
  | _ => false
  end.

Definition is_log_event (ev : event) : bool :=
  match ev with EvLog _ _ => true | _ => false end.

(** A record below [lvl], or a change of level, does not occur. *)
Definition respects_level (lvl : Z) (ev : event) : bool :=
  match ev with
  | EvLog l _ => lvl <=? l
  | EvSetLevel _ => false
  | _ => true
  end.

(** ** A sample client *)

Definition quiet_world : world :=
  {| api_key_set := true;
     client_init := None;
     client_getattr := fun _ => None;
     client_call := fun _ _ => Returns RetNone;
     float_of_text := fun _ => None;
     call_type := fun _ _ => None |}.

Definition keyless_world : world :=
  {| api_key_set := false;
     client_init := Some (Exn APIError "PICTERRA_API_KEY environment variable is not defined");
     client_getattr := fun _ => None;
     client_call := fun _ _ => Returns RetNone;
     float_of_text := fun _ => None;
     call_type := fun _ _ => None |}.

(** A client whose every method raises [e]. *)
Definition failing_world (e : exn) : world :=
  {| api_key_set := true;
     client_init := None;
     client_getattr := fun _ => None;
     client_call := fun _ _ => Throws e;
     float_of_text := fun _ => None;
     call_type := fun _ _ => None |}.

(** A client whose every method returns a page of the results 1 and 2. *)
Definition paging_world : world :=
  {| api_key_set := true;
     client_init := None;
     client_getattr := fun _ => None;
     client_call := fun _ _ => Returns (RetPage (Ok [VInt 1; VInt 2]));
     float_of_text := fun _ => None;
     call_type := fun _ _ => None |}.

(** A client that cannot be built. *)
Definition unbuildable_world (e : exn) : world :=
  {| api_key_set := true;
     client_init := Some e;
     client_getattr := fun _ => None;
     client_call := fun _ _ => Returns RetNone;
     float_of_text := fun _ => None;
     call_type := fun _ _ => None |}.

Definition lf : string := String "010" EmptyString.

Definition list_rasters : member :=
  {| m_name := "list_rasters";
     m_params :=
       [ MkParameter "self" AEmpty None;
         MkParameter "folder_id" (AUnion [AStr; ANoneType]) (Some VNone);
         MkParameter "page_number" (AUnion [AInt; ANoneType]) (Some VNone) ];
     m_doc := Some ("List of rasters metadata" ++ lf ++ lf ++ "Args:" ++ lf
                    ++ "    folder_id: The id of the folder to search rasters in" ++ lf
                    ++ "    page_number: Optional page (from 1) of the list we want") |}.

Definition run_detector : member :=
  {| m_name := "run_detector";
     m_params :=
       [ MkParameter "self" AEmpty None;
         MkParameter "detector_id" AStr None;
         MkParameter "raster_id" AStr None ];
     m_doc := Some ("Runs a detector on a raster: predictions are subject to a minimum charge" ++ lf
                    ++ "Args:" ++ lf
                    ++ "    detector_id: The id of the detector" ++ lf
                    ++ "    raster_id: The id of the raster") |}.

Definition create_detector : member :=
  {| m_name := "create_detector";
     m_params :=
       [ MkParameter "self" AEmpty None;
         MkParameter "name" (AUnion [AStr; ANoneType]) (Some VNone);
         MkParameter "detection_type" AStr (Some (VStr "count"));
         MkParameter "output_type" (ALiteral [VStr "polygon"; VStr "bbox"]) (Some (VStr "polygon"));
         MkParameter "training_steps" AInt (Some (VInt 500)) ];
     m_doc := Some ("Creates a new detector" ++ lf ++ "Args:" ++ lf
                    ++ "    name: Name of the detector" ++ lf
                    ++ "    detection_type: Type of detector (one of 'count', 'segmentation')" ++ lf
                    ++ "    output_type: Output type, one of (polygon, box)" ++ lf
                    ++ "    training_steps: Training steps the detector, one of (500, 1000)") |}.

Definition _wait_until_operation_completes : member :=
  {| m_name := "_wait_until_operation_completes";
     m_params := [ MkParameter "self" AEmpty None; MkParameter "operation_response" AEmpty None ];
     m_doc := None |}.

Definition sample_members : list member :=
  [ _wait_until_operation_completes; create_detector; list_rasters; run_detector ].

Definition sample_registry : registry :=
  match build_registry sample_members ∅ with
  | Ok r => r
  | Raise _ => {| subparsers := []; commands_map := ∅ |}
  end.

Definition list_rasters_options : options :=
  {| command := Some "list-rasters";
     verbose := 0;
     attrs := <["folder_id" := VNone]> (<["page_number" := VNone]> ∅) |}.

Definition list_rasters_params : gmap string (option coercion) :=
  list_to_map [("folder_id", Some (ByType (TyObject AStr)));
               ("page_number", Some (ByType (TyObject AInt)))].

Definition is_Ok {A} (r : result A) : bool :=
  match r with Ok _ => true | Raise _ => false end.

Definition get_Ok {A} (d : A) (r : result A) : A :=
  match r with Ok a => a | Raise _ => d end.

Definition loud_options : options :=
  {| command := Some "list-rasters"; verbose := 3; attrs := ∅ |}.

Definition not_found : exn := Exn APIError "404: detector not found".
Definition boom : exn := Exn (OtherError "RuntimeError") "boom".

(** The level a count of [-v] selects, as the table of levels gives it:
    three or more is [DEBUG], two is [INFO], one is [WARNING], and a count
    of zero selects nothing. *)
Definition level_for_count (count : Z) : option Z :=
  if 3 <=? count then Some DEBUG
  else if count =? 2 then Some INFO
  else if count =? 1 then Some WARNING
  else None.

(** ** Textual forms of a UUID *)

Definition is_hex_digit (c : ascii) : bool :=
  match PyInt.hex_val c with Some _ => true | None => false end.

Definition is_hyphen_pos (i : nat) : bool :=
  Nat.eqb i 8 || Nat.eqb i 13 || Nat.eqb i 18 || Nat.eqb i 23.

(** From position [i] on, [s] continues the form 8-4-4-4-12: hexadecimal
    digits of either case with hyphens at the positions 8, 13, 18, 23. *)
Fixpoint hyphenated_from (i : nat) (s : string) : bool :=
  match s with
  | EmptyString => Nat.eqb i 36
  | String c s' =>
      Nat.ltb i 36
      && (if is_hyphen_pos i then Ascii.eqb c "-" else is_hex_digit c)
      && hyphenated_from (S i) s'
  end.

(** The hyphenated form of a 128-bit UUID; the canonical form is the one
    whose digits are in lower case. *)
Definition hyphenated (s : string) : bool := hyphenated_from 0 s.



(** ** Notions used in the statements *)

(** The signature gives the parameter a default. *)
Definition has_default (p : parameter) : bool :=
  match p_default p with Some _ => true | None => false end.

(** Parameters and docstring lines used as instances below. *)
Definition output_type_param : parameter :=
  MkParameter "output_type" (ALiteral [VStr "polygon"; VStr "bbox"]) (Some (VStr "polygon")).

Definition output_type_lines : list string :=
  [ "Creates a new detector"; "output_type: Output type, one of (polygon, box)" ].

Definition training_steps_param : parameter :=
  MkParameter "training_steps" AInt (Some (VInt 500)).

Definition training_steps_lines : list string :=
  [ "Creates a new detector"; "training_steps: Training steps, one of (500, 1000)" ].

Definition training_steps_arg : subcommand_args :=
  {| required := false;
     default := Some (VInt 500);
     action := None;
     type_ := Some (TyObject AInt);
     help := Some "Training steps, one of (500, 1000) [int]";
     choices := Some [VStr "500"; VStr "1000"];
     name_or_flags := ["--training-steps"; "-t"] |}.

(** The members that become commands. *)
Definition public_members (members : list member) : list member :=
  List.filter (fun m => is_public (m_name m)) members.

(** The writes of one build on [commands_map]. *)
Definition register (cs : list subcommand) (m : commands_map_t) : commands_map_t :=
  fold_left (fun m c => <[c_name c := coercions_of c]> m) cs m.

(** The command a name resolves to: the one registered last. *)
Definition latest (k : string) (cs : list subcommand) : option subcommand :=
  find (fun c => String.eqb (c_name c) k) (rev cs).

(** A hexadecimal digit or a hyphen. *)
Definition plain (c : ascii) : Prop := is_hex_digit c = true \/ c = "-"%char.

Abbreviation all_hex l := (Forall (fun c => is_hex_digit c = true) l).

(** The number of digit positions of the hyphenated form before [i]. *)
Definition hexcount (i : nat) : nat :=
  length (List.filter (fun j => negb (is_hyphen_pos j)) (seq 0 i)).

(** The command of the sample client for [run_detector], as the registry
    holds it. *)
Definition uuid_arg (what : string) : subcommand_args :=
  {| required := true;
     default := None;
     action := None;
     type_ := Some TyUuidType;
     help := Some ("The id of the " ++ what ++ " [uuid_type]");
     choices := None;
     name_or_flags := ["--" ++ what ++ "-id"; "-" ++ String.substring 0 1 what] |}.

Definition run_detector_command : subcommand :=
  {| c_name := "run-detector";
     c_help := Some "Runs a detector on a raster: predictions are subject to a minimum charge";
     c_args := [("detector_id", uuid_arg "detector"); ("raster_id", uuid_arg "raster")] |}.


Definition upper_v1_uuid : string := "123E4567-E89B-12D3-A456-426614174000".

(** The events in which a result is rendered. *)
Definition is_render_event (ev : event) : bool :=
  match ev with
  | EvMaterialize | EvPrettyPrint _ => true
  | _ => false
  end.

Definition rendered (t : list event) : list event := List.filter is_render_event t.

(** What is rendered for a result: nothing for [None], the value itself,
    or the list a page of results is turned into. *)
Definition rendering_of (r : returned) : list event :=
  match r with
  | RetNone => []
  | RetValue v => [EvPrettyPrint v]
  | RetPage (Ok items) => [EvMaterialize; EvPrettyPrint (VList items)]
  | RetPage (Raise _) => [EvMaterialize]
  end.

(** The events that follow the construction of the client. *)
Definition uses_client (ev : event) : bool :=
  match ev with
  | EvGetMethod _ | EvCall _ _ | EvMaterialize | EvPrettyPrint _ => true
  | _ => false
  end.

(** The event touches no method but [n], and calls it with the attribute
    of the namespace for each registered parameter name and nothing else. *)
Definition calls_only (n : string) (params : gmap string (option coercion)) (o : options)
    (ev : event) : Prop :=
  match ev with
  | EvGetMethod m => m = n
  | EvCall m args => m = n /\ args = map_imap (fun k _ => attrs o !! k) params
  | _ => True
  end.



(** The one-letter option strings of a command. *)
Definition short_flags (c : subcommand) : list string :=
  concat (map (fun pa => tl (name_or_flags (snd pa))) (c_args c)).

Definition short_of (c : ascii) : string := String "-" (String c EmptyString).

(** An initial that may serve as a one-letter option: not the letter of
    [--verbose] nor that of [--help]. *)
Definition free_letter (c : ascii) : bool :=
  negb (Ascii.eqb c "v") && negb (Ascii.eqb c "h").

(** A parameter of the sample kind whose literals are not all strings. *)
Definition tile_size_param : parameter :=
  MkParameter "tile_size" (ALiteral [VInt 256; VInt 512]) (Some (VInt 256)).

Definition resize : member :=
  {| m_name := "resize";
     m_params := [ MkParameter "self" AEmpty None; tile_size_param ];
     m_doc := Some "Resizes the tiles" |}.

(** A method without a docstring. *)
Definition delete_raster : member :=
  {| m_name := "delete_raster";
     m_params := [ MkParameter "self" AEmpty None; MkParameter "raster_id" AStr None ];
     m_doc := None |}.

(** No character of the text is [c]. *)
Definition free_of (c : ascii) (s : string) : Prop :=
  Forall (fun x => Ascii.eqb x c = false) (PyStr.chars s).

(** The text in lower case, letter by letter. *)
Definition lower_text (s : string) : string :=
  PyStr.of_chars (map PyStr.lower (PyStr.chars s)).

(** A method whose docstring opens with a line on its status. *)
Definition edit_raster : member :=
  {| m_name := "edit_raster";
     m_params := [ MkParameter "self" AEmpty None; MkParameter "raster_id" AStr None ];
     m_doc := Some ("This function is still in beta" ++ lf ++ "   Edits a raster  " ++ lf
                    ++ "raster_id: The id of the raster") |}.

Definition not_self (p : parameter) : bool := negb (String.eqb (p_name p) "self").






(** * The model on a few inputs *)

Example uuid_type_canonical :
  uuid_type "123e4567-e89b-12d3-a456-426614174000"
  = Ok "123e4567-e89b-12d3-a456-426614174000".
Proof. reflexivity. Qed.

Example uuid_type_malformed :
  uuid_type "not-a-uuid"
  = Raise (Exn ArgumentTypeError "invalid UUID value: 'not-a-uuid'").
Proof. reflexivity. Qed.

Example re_match_parens :
  OneOf.re_match "Output, one of (polygon, bbox) [str]" = Some "polygon, bbox".
Proof. reflexivity. Qed.

Example re_match_quotes :
  OneOf.re_match "ONE OF 'count', 'segmentation'" = Some "'count', 'segmentation'".
Proof. reflexivity. Qed.

Example re_match_none :
  OneOf.re_match "the identifier of the raster [uuid_type]" = None.
Proof. reflexivity. Qed.

(** * The repetition of the pattern needs no more fuel *)

Lemma opt_split f l a b : OneOf.opt f l = (a, b) -> l = (a ++ b)%list.
Proof.
  unfold OneOf.opt. destruct l as [|c l]; [intros H; inversion H; reflexivity|].
  destruct (f c); intros H; inversion H; reflexivity.
Qed.

Lemma span_split f l : forall w r, OneOf.span f l = (w, r) -> l = (w ++ r)%list.
Proof.
  induction l as [|c l IH]; intros w r H; cbn in H.
  - inversion H. reflexivity.
  - destruct (f c).
    + destruct (OneOf.span f l) as [w' r'] eqn:E. inversion H; subst.
      cbn. f_equal. apply IH. reflexivity.
    + inversion H. reflexivity.
Qed.

(** Every round of the repetition consumes at least one character. *)
Lemma token_shorter l t rest :
  OneOf.token l = Some (t, rest) -> (length rest < length l)%nat.
Proof.
  unfold OneOf.token.
  destruct (OneOf.opt OneOf.is_quote l) as [q1 l1] eqn:E1.
  destruct (OneOf.span PyStr.is_word l1) as [w l2] eqn:E2.
  destruct w as [|c w]; [discriminate|].
  destruct (OneOf.opt OneOf.is_quote l2) as [q2 l3] eqn:E3.
  destruct (OneOf.opt OneOf.is_comma l3) as [cm l4] eqn:E4.
  destruct (OneOf.opt PyStr.is_space l4) as [sp l5] eqn:E5.
  intros H. inversion H; subst.
  apply opt_split in E1, E3, E4, E5. apply span_split in E2. subst.
  rewrite !List.length_app. cbn [length]. lia.
Qed.

Lemma tokens_fuel n : forall m l,
  (length l <= n)%nat -> (length l <= m)%nat -> OneOf.tokens n l = OneOf.tokens m l.
Proof.
  induction n as [|n IH]; intros m l Hn Hm.
  - destruct l; [|cbn in Hn; lia]. destruct m; reflexivity.
  - destruct m as [|m].
    + destruct l; [reflexivity | cbn in Hm; lia].
    + cbn [OneOf.tokens].
      destruct (OneOf.token l) as [[t rest]|] eqn:E; [|reflexivity].
      apply token_shorter in E. f_equal. apply IH; lia.
Qed.

(** The length of the text is fuel enough: with any larger amount the
    repetition reads the same characters. *)
Lemma tokens_total l n :
  (length l <= n)%nat -> OneOf.tokens n l = OneOf.tokens (length l) l.
Proof. intros H. apply tokens_fuel; [exact H | apply Nat.le_refl]. Qed.

(** * Properties of the dispatcher *)

Section Dispatcher.

Variable w : world.
Variable cm : commands_map_t.

Lemma log_no_client st lvl msg :
  Forall (fun ev => is_client_event ev = false) (log st lvl msg).
Proof.
  unfold log. destruct (effective_level st <=? lvl); repeat constructor.
Qed.

Lemma log_respects st lvl msg :
  Forall (fun ev => respects_level (effective_level st) ev = true) (log st lvl msg).
Proof.
  unfold log. destruct (effective_level st <=? lvl) eqn:E; repeat constructor.
  exact E.
Qed.

Lemma apply_verbosity_no_client v st :
  Forall (fun ev => is_client_event ev = false) (snd (apply_verbosity v st)).
Proof.
  unfold apply_verbosity.
  destruct (v =? 0); [constructor|].
  destruct (3 <=? v); [repeat constructor|].
  destruct (v =? 2); [repeat constructor|].
  destruct (v =? 1); repeat constructor.
Qed.

Lemma apply_verbosity_table v st :
  apply_verbosity v st
  = match level_for_count v with
    | Some l => (setLevel l st, [EvSetLevel l])
    | None => (st, [])
    end.
Proof.
  unfold apply_verbosity, level_for_count.
  destruct (v =? 0) eqn:E0.
  - apply Z.eqb_eq in E0. subst v. reflexivity.
  - destruct (3 <=? v); [reflexivity|].
    destruct (v =? 2); [reflexivity|].
    destruct (v =? 1); reflexivity.
Qed.

Ltac respects :=
  repeat first
    [ apply log_respects
    | apply List.Forall_nil
    | apply List.Forall_cons; [reflexivity|]
    | apply List.Forall_app; split
    | assumption ].

Lemma guarded_call_respects st o name mname params :
  Forall (fun ev => respects_level (effective_level st) ev = true)
         (fst (guarded_call w st o name mname params)).
Proof.
  unfold guarded_call.
  destruct (client_getattr w mname); [repeat constructor|].
  destruct (collect_args params o); [|repeat constructor].
  destruct (client_call w mname a) as [[| v | [items | e]] | e];
    cbn [fst]; respects.
Qed.

(** Every path of the dispatcher, after the level is applied, only
    writes records the level lets through. *)
Lemma handle_command_split st o :
  exists rest,
    trace_of (_handle_command w cm st o) = (snd (apply_verbosity (verbose o) st) ++ rest)%list
    /\ state_of (_handle_command w cm st o) = fst (apply_verbosity (verbose o) st)
    /\ Forall (fun ev =>
                 respects_level (effective_level (fst (apply_verbosity (verbose o) st))) ev = true)
              rest.
Proof.
  unfold _handle_command.
  destruct (apply_verbosity (verbose o) st) as [st' t0]. cbn [fst snd].
  pose proof (guarded_call_respects st' o) as G.
  destruct (negb (api_key_set w));
    [|destruct (command o) as [name|];
      [destruct (cm !! name) as [params|];
       [destruct (client_init w);
        [|specialize (G name (_cmd_arg_to_api_arg name) params);
          destruct (guarded_call w st' o name (_cmd_arg_to_api_arg name) params) as [t4 r];
          cbn [fst] in G;
          destruct r as [[]|err];
          [|destruct (is_api_or_value_error err); [|destruct (is_Exception err)]]]|]|]].
  all: unfold trace_of, state_of; cbn [fst snd];
    rewrite <- ?app_assoc; eexists; (split; [reflexivity|]); (split; [reflexivity|]);
    respects.
Qed.

End Dispatcher.

(** C1.  When [PICTERRA_API_KEY] is not in the environment, the dispatcher
    ends the process through [sys.exit] with a message that contains
    "Missing 'PICTERRA_API_KEY' environment variable" (exit status 1),
    whatever the command and its parameters, and up to that point the
    client is neither constructed nor asked for a method nor called. *)
Theorem C1_missing_key_exits_before_client
    (w : world) (cm : commands_map_t) (st : log_state) (o : options) :
  api_key_set w = false ->
  outcome_of (_handle_command w cm st o) = Exited (ExitMessage (red missing_key_message))
  /\ exit_status (outcome_of (_handle_command w cm st o)) = Some 1
  /\ PyStr.contains missing_key_message (red missing_key_message) = true
  /\ Forall (fun ev => is_client_event ev = false) (trace_of (_handle_command w cm st o)).
Proof.
  intros Hkey. unfold _handle_command.
  pose proof (apply_verbosity_no_client (verbose o) st) as Hv.
  destruct (apply_verbosity (verbose o) st) as [st' t0]. cbn [snd] in Hv.
  rewrite Hkey. cbn [negb outcome_of trace_of fst snd exit_status].
  repeat split; try reflexivity.
  repeat (apply List.Forall_app; split); try apply log_no_client. exact Hv.
Qed.

Lemma C1_witness :
  api_key_set keyless_world = false
  /\ outcome_of (_handle_command keyless_world (commands_map sample_registry)
                   initial_log_state list_rasters_options)
     = Exited (ExitMessage (red missing_key_message)).
Proof.
  split; [reflexivity|].
  apply (C1_missing_key_exits_before_client keyless_world (commands_map sample_registry)
           initial_log_state list_rasters_options).
  reflexivity.
Defined.




(** C7, as the code has it.  The dispatcher applies the count of [-v]
    before anything else: a count of three or more sets the logger to
    [DEBUG], two to [INFO], one to [WARNING], and a count of zero leaves
    the level as it is, which in a fresh process is the [CRITICAL]
    threshold of the start-up configuration.  Every record written
    afterwards is at or above the level in force. *)
Theorem C7_verbosity_applied_first
    (w : world) (cm : commands_map_t) (st : log_state) (o : options) :
  state_of (_handle_command w cm st o)
  = match level_for_count (verbose o) with
    | Some l => setLevel l st
    | None => st
    end
  /\ (exists rest,
        trace_of (_handle_command w cm st o)
        = (match level_for_count (verbose o) with
           | Some l => [EvSetLevel l]
           | None => []
           end ++ rest)%list
        /\ Forall (fun ev =>
                     respects_level (effective_level (state_of (_handle_command w cm st o))) ev
                     = true) rest)
  /\ level_for_count 0 = None
  /\ effective_level initial_log_state = CRITICAL.
Proof.
  destruct (handle_command_split w cm st o) as (rest & Ht & Hs & Hr).
  rewrite apply_verbosity_table in Ht, Hs, Hr.
  split; [|split; [|split; reflexivity]].
  - rewrite Hs. destruct (level_for_count (verbose o)); reflexivity.
  - exists rest. rewrite Ht, Hs. split.
    + destruct (level_for_count (verbose o)); reflexivity.
    + exact Hr.
Qed.

(** C7 as it was stated fails at a count of zero, which is not silent: the
    critical record of a swallowed exception is still written. *)
Lemma C7_counterexample :
  verbose list_rasters_options = 0
  /\ fst (main (failing_world boom) sample_members (Cmdline (Some "list-rasters") []))
     = trace_of (_handle_command (failing_world boom) (commands_map sample_registry)
                   initial_log_state list_rasters_options)
  /\ existsb is_log_event
       (fst (main (failing_world boom) sample_members (Cmdline (Some "list-rasters") [])))
     = true
  /\ In (EvLog CRITICAL (MsgException boom))
        (fst (main (failing_world boom) sample_members (Cmdline (Some "list-rasters") []))).
Proof.
  split; [reflexivity|]. split; [vm_compute; reflexivity|]. split; [vm_compute; reflexivity|].
  vm_compute. right. right. right. left. reflexivity.
Qed.

(** * Properties of the descriptors *)

(** What a finished descriptor says about the steps that built it. *)
Lemma parse_param_inv lines di p d :
  parse_param lines di p = Ok d ->
  exists i,
    infer (p_name p) (p_annotation p) = Ok i
    /\ required d = negb (has_default p)
    /\ default d = p_default p
    /\ action d = i_action i
    /\ type_ d = i_type i
    /\ help d = fst (help_and_choices lines (p_name p) (i_type i) (i_choices i))
    /\ choices d
       = (if truthy (snd (help_and_choices lines (p_name p) (i_type i) (i_choices i)))
          then snd (help_and_choices lines (p_name p) (i_type i) (i_choices i))
          else None).
Proof.
  unfold parse_param, has_default. intros H.
  destruct (infer (p_name p) (p_annotation p)) as [i|e]; cbn [bind] in H; [|discriminate].
  exists i. split; [reflexivity|].
  destruct (help_and_choices lines (p_name p) (i_type i) (i_choices i)) as [h c1].
  cbn [fst snd].
  destruct (truthy c1).
  - destruct (join_choices _); cbn [bind] in H; [|discriminate].
    destruct (make_flags di (p_name p)); cbn [bind] in H; [|discriminate].
    inversion H; subst; cbn. repeat split; reflexivity.
  - cbn [bind] in H.
    destruct (make_flags di (p_name p)); cbn [bind] in H; [|discriminate].
    inversion H; subst; cbn. repeat split; reflexivity.
Qed.

Lemma infer_literal param vals :
  infer param (ALiteral vals) = Ok (Inferred None (literal_type vals) (Some vals)).
Proof. reflexivity. Qed.

(** When the variable [choices] is already true, the docstring is not
    used: no help text, and the choices stay. *)
Lemma help_and_choices_truthy lines param ty c0 :
  truthy c0 = true -> help_and_choices lines param ty c0 = (None, c0).
Proof.
  intros H. unfold help_and_choices.
  destruct (find (PyStr.startswith param) lines); [|reflexivity].
  destruct (PyStr.split ":" s) as [|x [|field rest]]; try reflexivity.
  rewrite H. reflexivity.
Qed.

(** When a help text is recorded and the pattern matches it, the variable
    [choices] holds the tokens of group 1. *)
Lemma help_and_choices_matched lines param ty c0 h g :
  fst (help_and_choices lines param ty c0) = Some h ->
  OneOf.re_match h = Some g ->
  snd (help_and_choices lines param ty c0) = Some (choices_of_group g).
Proof.
  unfold help_and_choices.
  destruct (find (PyStr.startswith param) lines); [|discriminate].
  destruct (PyStr.split ":" s) as [|x [|field rest]]; try discriminate.
  destruct (negb (truthy c0)); [|discriminate].
  destruct (OneOf.re_match (PyStr.strip field ++ type_suffix ty)) eqn:E;
    cbn [fst snd]; intros Hh Hm; inversion Hh; subst; rewrite Hm in E.
  - inversion E. reflexivity.
  - discriminate.
Qed.

Lemma split_from_nonempty sep cur s : PyStr.split_from sep cur s <> [].
Proof.
  revert cur. induction s as [|c s IH]; intros cur; cbn.
  - discriminate.
  - destruct (Ascii.eqb c sep); [discriminate | apply IH].
Qed.

Lemma choices_of_group_truthy g : truthy (Some (choices_of_group g)) = true.
Proof.
  unfold choices_of_group, PyStr.split.
  pose proof (split_from_nonempty "," [] (PyStr.replace "'" "" g)) as H.
  destruct (PyStr.split_from "," [] (PyStr.replace "'" "" g)); [congruence | reflexivity].
Qed.

Lemma choices_of_group_strings g : Forall (fun v => isinstance_str v = true) (choices_of_group g).
Proof.
  unfold choices_of_group. apply List.Forall_map. apply List.Forall_forall. reflexivity.
Qed.

(** C2, as the code has it.  For a parameter whose declared type is a
    non-empty closed enumeration of literals, the choice set recorded is
    the one of the type, whatever its help line says: the docstring is
    consulted for choices only when the type gives none. *)
Theorem C2_type_choices_take_precedence
    (lines : list string) (di : bool) (p : parameter) (d : subcommand_args)
    (v : value) (vals : list value) :
  p_annotation p = ALiteral (v :: vals) ->
  parse_param lines di p = Ok d ->
  choices d = Some (v :: vals).
Proof.
  intros Ha H. apply parse_param_inv in H.
  destruct H as (i & Hi & _ & _ & _ & _ & _ & Hc).
  rewrite Ha, infer_literal in Hi. inversion Hi; subst i. cbn [i_type i_choices] in *.
  rewrite help_and_choices_truthy in Hc by reflexivity.
  exact Hc.
Qed.

Lemma C2_witness :
  exists d, parse_param output_type_lines true output_type_param = Ok d
            /\ choices d = Some [VStr "polygon"; VStr "bbox"].
Proof.
  eexists. split; [reflexivity|].
  apply (C2_type_choices_take_precedence output_type_lines true output_type_param _
           (VStr "polygon") [VStr "bbox"]); reflexivity.
Defined.

(** C2 as it was stated fails: the parameter has a literal type and a help
    line on which the pattern finds the choices [polygon] and [box], and
    the descriptor records the choices of the type. *)
Lemma C2_counterexample :
  p_annotation output_type_param = ALiteral [VStr "polygon"; VStr "bbox"]
  /\ find (PyStr.startswith "output_type") output_type_lines
     = Some "output_type: Output type, one of (polygon, box)"
  /\ OneOf.re_match "Output type, one of (polygon, box) [str]" = Some "polygon, box"
  /\ choices_of_group "polygon, box" = [VStr "polygon"; VStr "box"]
  /\ exists d, parse_param output_type_lines true output_type_param = Ok d
               /\ choices d = Some [VStr "polygon"; VStr "bbox"]
               /\ choices d <> Some (choices_of_group "polygon, box").
Proof.
  repeat (split; [reflexivity|]).
  eexists. split; [reflexivity|]. split; [reflexivity|]. discriminate.
Qed.

Lemma parse_param_required lines di p d :
  parse_param lines di p = Ok d ->
  required d = negb (has_default p) /\ default d = p_default p.
Proof.
  intros H. apply parse_param_inv in H.
  destruct H as (i & _ & Hr & Hd & _). split; assumption.
Qed.

(** C10.  When a help text is recorded and the pattern finds choices in
    it, the recorded choices are the comma-separated tokens of group 1,
    quotes removed and white space stripped, each of them a string,
    whatever converter the parameter has. *)
Theorem C10_help_choices_are_strings
    (lines : list string) (di : bool) (p : parameter) (d : subcommand_args)
    (h g : string) :
  parse_param lines di p = Ok d ->
  help d = Some h ->
  OneOf.re_match h = Some g ->
  choices d
  = Some (map (fun s => VStr (PyStr.strip s)) (PyStr.split "," (PyStr.replace "'" "" g)))
  /\ (forall l, choices d = Some l -> Forall (fun v => isinstance_str v = true) l).
Proof.
  intros H Hh Hm. apply parse_param_inv in H.
  destruct H as (i & _ & _ & _ & _ & _ & Hhelp & Hc).
  rewrite Hh in Hhelp. symmetry in Hhelp.
  rewrite (help_and_choices_matched _ _ _ _ _ _ Hhelp Hm) in Hc.
  rewrite choices_of_group_truthy in Hc.
  split; [exact Hc|].
  intros l Hl. rewrite Hc in Hl. inversion Hl. apply choices_of_group_strings.
Qed.

Lemma C10_witness :
  exists d, parse_param training_steps_lines true training_steps_param = Ok d
            /\ type_ d = Some (TyObject AInt)
            /\ choices d = Some [VStr "500"; VStr "1000"].
Proof.
  eexists. split; [reflexivity|]. split; [reflexivity|].
  apply (C10_help_choices_are_strings training_steps_lines true training_steps_param _
           "Training steps, one of (500, 1000) [int]" "500, 1000");
    reflexivity.
Defined.

(** C4 at the parameter the code misses.  An optional string parameter
    whose name ends in [_id] gets the plain [str] converter, where the same
    parameter declared [str] gets [uuid_type]; for the other inner types
    the optional form gets what the inner type gets. *)
Theorem C4_optional_id_gets_plain_str :
  infer "folder_id" (AUnion [AStr; ANoneType])
  = Ok (Inferred None (Some (TyObject AStr)) None)
  /\ infer "folder_id" AStr = Ok (Inferred None (Some TyUuidType) None)
  /\ (forall param,
        infer param (AUnion [AInt; ANoneType]) = infer param AInt
        /\ infer param (AUnion [AFloat; ANoneType]) = infer param AFloat
        /\ infer param (AUnion [ABool; ANoneType]) = infer param ABool
        /\ infer param (AUnion [AStr; ANoneType])
           = Ok (Inferred None (Some (TyObject AStr)) None)).
Proof.
  split; [reflexivity|]. split; [reflexivity|].
  intros param. repeat split; reflexivity.
Qed.

(** * Properties of the registry *)

Section Registry.

Lemma register_snoc cs c m :
  register (cs ++ [c]) m = <[c_name c := coercions_of c]> (register cs m).
Proof. unfold register. rewrite fold_left_app. reflexivity. Qed.

Lemma lookup_register cs (m : commands_map_t) k :
  register cs m !! k
  = match latest k cs with
    | Some c => Some (coercions_of c)
    | None => m !! k
    end.
Proof.
  induction cs as [|c cs IH] using rev_ind.
  - reflexivity.
  - rewrite register_snoc. unfold latest. rewrite rev_unit. cbn [find].
    rewrite lookup_insert.
    destruct (String.eqb (c_name c) k) eqn:E.
    + apply String.eqb_eq in E. rewrite decide_True by exact E. reflexivity.
    + apply String.eqb_neq in E. rewrite decide_False by exact E. exact IH.
Qed.

Lemma register_idempotent cs (m : commands_map_t) :
  register cs (register cs m) = register cs m.
Proof.
  apply map_eq. intros k. rewrite lookup_register.
  destruct (latest k cs) eqn:E.
  - rewrite lookup_register, E. reflexivity.
  - reflexivity.
Qed.

Lemma build_inv members : forall r0 r,
  build members r0 = Ok r ->
  exists cs,
    mapM parse_member (public_members members) = Ok cs
    /\ subparsers r = (subparsers r0 ++ cs)%list
    /\ commands_map r = register cs (commands_map r0).
Proof.
  induction members as [|m ms IH]; intros r0 r H; cbn [build] in H.
  - inversion H; subst. exists []. rewrite app_nil_r. repeat split; reflexivity.
  - unfold public_members. cbn [List.filter].
    destruct (is_public (m_name m)).
    + destruct (parse_member m) as [c|e] eqn:E; cbn [bind] in H; [|discriminate].
      apply IH in H. destruct H as (cs & Hcs & Hs & Hm).
      cbn [subparsers commands_map] in Hs, Hm.
      exists (c :: cs). cbn [mapM]. rewrite E. cbn [bind].
      fold (public_members ms). rewrite Hcs. cbn [bind].
      rewrite <- app_assoc in Hs. repeat split; assumption.
    + apply IH in H. exact H.
Qed.

Lemma build_complete members : forall r0 cs,
  mapM parse_member (public_members members) = Ok cs ->
  build members r0
  = Ok {| subparsers := (subparsers r0 ++ cs)%list;
          commands_map := register cs (commands_map r0) |}.
Proof.
  induction members as [|m ms IH]; intros r0 cs H; cbn [build].
  - cbn in H. inversion H; subst. rewrite app_nil_r. destruct r0; reflexivity.
  - unfold public_members in H. cbn [List.filter] in H.
    destruct (is_public (m_name m)).
    + cbn [mapM] in H.
      destruct (parse_member m) as [c|e]; cbn [bind] in *; [|discriminate].
      fold (public_members ms) in H.
      destruct (mapM parse_member (public_members ms)) as [cs'|e] eqn:E;
        cbn [bind] in H; [|discriminate].
      inversion H; subst cs.
      rewrite (IH _ cs' eq_refl). cbn [subparsers commands_map].
      rewrite <- app_assoc. reflexivity.
    + apply IH. exact H.
Qed.

Lemma parse_member_name m c :
  parse_member m = Ok c -> c_name c = api_arg_to_cmd_arg (m_name m).
Proof.
  unfold parse_member. intros H.
  destruct (mapM _ _); cbn [bind] in H; [|discriminate].
  destruct (mapM _ _); cbn [bind] in H; [|discriminate].
  inversion H. reflexivity.
Qed.

Lemma mapM_names ms : forall cs,
  mapM parse_member ms = Ok cs ->
  map c_name cs = map (fun m => api_arg_to_cmd_arg (m_name m)) ms.
Proof.
  induction ms as [|m ms IH]; intros cs H; cbn in H.
  - inversion H. reflexivity.
  - destruct (parse_member m) as [c|e] eqn:E; cbn [bind] in H; [|discriminate].
    destruct (mapM parse_member ms) as [cs'|e]; cbn [bind] in H; [|discriminate].
    inversion H; subst. cbn. rewrite (parse_member_name _ _ E), (IH _ eq_refl).
    reflexivity.
Qed.

(** Replacing one character by another acts character by character. *)
Lemma replace_char_cons a b c s :
  PyStr.replace_from (String a EmptyString) (String b EmptyString) O (String c s)
  = String (if Ascii.eqb a c then b else c)
           (PyStr.replace_from (String a EmptyString) (String b EmptyString) O s).
Proof.
  cbn [PyStr.replace_from PyStr.startswith]. rewrite andb_true_r.
  destruct (Ascii.eqb a c); reflexivity.
Qed.

(** Turning the hyphens back gives the method name: the two renamings
    are inverse on names without a hyphen. *)
Lemma cmd_arg_roundtrip s :
  PyStr.contains "-" s = false ->
  _cmd_arg_to_api_arg (api_arg_to_cmd_arg s) = s.
Proof.
  unfold _cmd_arg_to_api_arg, api_arg_to_cmd_arg, PyStr.replace.
  induction s as [|c s IH]; intros H; [reflexivity|].
  cbn [PyStr.contains PyStr.startswith] in H.
  apply orb_false_iff in H. destruct H as [Hc Hs].
  rewrite andb_true_r in Hc.
  rewrite replace_char_cons.
  destruct (Ascii.eqb "_" c) eqn:E.
  - apply Ascii.eqb_eq in E. subst c.
    rewrite replace_char_cons. cbn [Ascii.eqb Bool.eqb]. cbn.
    f_equal. apply IH. exact Hs.
  - rewrite replace_char_cons, Hc. f_equal. apply IH. exact Hs.
Qed.

Lemma latest_unique cs : forall c,
  List.NoDup (map c_name cs) -> In c cs -> latest (c_name c) cs = Some c.
Proof.
  induction cs as [|c0 cs IH] using rev_ind; intros c Hnd Hin; [destruct Hin|].
  unfold latest. rewrite rev_unit. cbn [find].
  rewrite map_app in Hnd. cbn in Hnd.
  apply in_app_or in Hin. destruct Hin as [Hin | [-> | []]].
  - destruct (String.eqb (c_name c0) (c_name c)) eqn:E.
    + apply String.eqb_eq in E. exfalso.
      apply NoDup_remove_2 in Hnd. apply Hnd. rewrite app_nil_r.
      rewrite E. apply in_map. exact Hin.
    + apply IH; [|exact Hin].
      apply NoDup_remove_1 in Hnd. rewrite app_nil_r in Hnd. exact Hnd.
  - rewrite String.eqb_refl. reflexivity.
Qed.

End Registry.

Lemma public_names_NoDup members :
  List.NoDup (map m_name members) -> List.NoDup (map m_name (public_members members)).
Proof.
  induction members as [|m ms IH]; intros H; [constructor|].
  cbn in H. inversion H as [|x l Hni Hnd]; subst.
  unfold public_members. cbn [List.filter].
  destruct (is_public (m_name m)).
  - cbn [map]. constructor; [|apply IH; exact Hnd].
    intros Hin. apply Hni. apply in_map_iff in Hin. destruct Hin as (m' & Hn & Hin).
    apply filter_In in Hin. destruct Hin as [Hin _].
    rewrite <- Hn. apply in_map. exact Hin.
  - apply IH. exact Hnd.
Qed.

Lemma command_names_NoDup members :
  List.NoDup (map m_name members) ->
  Forall (fun m => PyStr.contains "-" (m_name m) = false) members ->
  List.NoDup (map (fun m => api_arg_to_cmd_arg (m_name m)) (public_members members)).
Proof.
  intros Hnd Hhy.
  rewrite <- (map_map m_name api_arg_to_cmd_arg).
  apply NoDup_map_NoDup_ForallPairs; [|apply public_names_NoDup; exact Hnd].
  intros x y Hx Hy Heq.
  assert (Hfree : forall n, In n (map m_name (public_members members)) ->
                            PyStr.contains "-" n = false).
  { intros n Hn. apply in_map_iff in Hn. destruct Hn as (m & <- & Hm).
    apply filter_In in Hm. destruct Hm as [Hm _].
    rewrite List.Forall_forall in Hhy. apply Hhy. exact Hm. }
  rewrite <- (cmd_arg_roundtrip x), <- (cmd_arg_roundtrip y) by (apply Hfree; assumption).
  rewrite Heq. reflexivity.
Qed.

(** C8.  Building the registry gives one command per public method of the
    client type, in the order of the members and named by the method name
    with hyphens for underscores; the names the client type gives its
    methods being distinct and free of hyphens, each such command name
    occurs exactly once, and [commands_map] holds the coercions of each
    command.  Building again in the state the first build leaves gives
    the very same registry. *)
Theorem C8_one_command_per_public_method
    (members : list member) (cm : commands_map_t) (r : registry) :
  build_registry members cm = Ok r ->
  List.NoDup (map m_name members) ->
  Forall (fun m => PyStr.contains "-" (m_name m) = false) members ->
  map c_name (subparsers r)
  = map (fun m => api_arg_to_cmd_arg (m_name m)) (public_members members)
  /\ (forall m, In m members -> is_public (m_name m) = true ->
        count_occ string_dec (map c_name (subparsers r)) (api_arg_to_cmd_arg (m_name m))
        = 1%nat)
  /\ (forall c, In c (subparsers r) -> commands_map r !! c_name c = Some (coercions_of c))
  /\ build_registry members (commands_map r) = Ok r.
Proof.
  intros Hb Hnd Hhy. unfold build_registry in *.
  apply build_inv in Hb. destruct Hb as (cs & Hcs & Hs & Hm).
  cbn [subparsers commands_map app] in Hs, Hm.
  pose proof (mapM_names _ _ Hcs) as Hnames.
  pose proof (command_names_NoDup members Hnd Hhy) as Hnd'.
  rewrite <- Hnames in Hnd'.
  rewrite Hs.
  split; [exact Hnames|]. split; [|split].
  - intros m Hin Hpub.
    apply (proj1 (NoDup_count_occ' string_dec (map c_name cs)) Hnd').
    rewrite Hnames.
    apply (in_map (fun m => api_arg_to_cmd_arg (m_name m))).
    apply filter_In. split; assumption.
  - intros c Hin. rewrite Hm, lookup_register.
    rewrite (latest_unique cs c Hnd' Hin). reflexivity.
  - rewrite (build_complete members _ cs Hcs).
    cbn [subparsers commands_map app].
    rewrite Hm, register_idempotent, <- Hm, <- Hs.
    destruct r; reflexivity.
Qed.

Lemma sample_names_NoDup : List.NoDup (map m_name sample_members).
Proof.
  repeat constructor; cbn; intuition discriminate.
Defined.

Lemma C8_witness :
  map c_name (subparsers sample_registry) = ["create-detector"; "list-rasters"; "run-detector"]
  /\ build_registry sample_members (commands_map sample_registry) = Ok sample_registry.
Proof.
  destruct (C8_one_command_per_public_method sample_members ∅ sample_registry)
    as (Hn & _ & _ & Hb).
  - vm_compute. reflexivity.
  - exact sample_names_NoDup.
  - repeat constructor.
  - split; [exact Hn | exact Hb].
Defined.

Lemma mapM_In {A B : Type} (f : A -> result B) (l : list A) : forall l',
  mapM f l = Ok l' -> forall y, In y l' -> exists x, In x l /\ f x = Ok y.
Proof.
  induction l as [|a l IH]; intros l' H y Hy; cbn [mapM] in H.
  - inversion H; subst. destruct Hy.
  - destruct (f a) as [b|e] eqn:E; cbn [bind] in H; [|discriminate].
    destruct (mapM f l) as [bs|e]; cbn [bind] in H; [|discriminate].
    inversion H; subst. destruct Hy as [<- | Hy].
    + exists a. split; [left; reflexivity | exact E].
    + destruct (IH bs eq_refl y Hy) as (x & Hx & Hfx).
      exists x. split; [right; exact Hx | exact Hfx].
Qed.

(** Every argument of a command comes from a parameter of the method. *)
Lemma parse_member_args m c name d :
  parse_member m = Ok c ->
  In (name, d) (c_args c) ->
  exists p lines di,
    In p (m_params m) /\ p_name p = name /\ parse_param lines di p = Ok d.
Proof.
  unfold parse_member. intros H Hin.
  destruct (mapM _ _) as [initials|e]; cbn [bind] in H; [|discriminate].
  destruct (mapM _ _) as [args|e] eqn:E; cbn [bind] in H; [|discriminate].
  inversion H; subst c. cbn [c_args] in Hin.
  destruct (mapM_In _ _ _ E _ Hin) as (p & Hp & Hfp).
  apply filter_In in Hp. destruct Hp as [Hp _].
  destruct (parse_param _ _ p) as [d'|e] eqn:E'; cbn [bind] in Hfp; [|discriminate].
  inversion Hfp; subst. eauto 10.
Qed.

(** C6.  For every argument of every command of the registry, taken with
    the parameter of the method it was built from: the argument is
    required exactly when the signature gives the parameter no default,
    whatever the declared type is, and it carries a default exactly when
    the signature has one, so that a parameter with a default is never
    required. *)
Theorem C6_required_iff_no_default
    (members : list member) (cm : commands_map_t) (r : registry)
    (c : subcommand) (name : string) (d : subcommand_args) :
  build_registry members cm = Ok r ->
  In c (subparsers r) ->
  In (name, d) (c_args c) ->
  exists m p,
    In m members /\ c_name c = api_arg_to_cmd_arg (m_name m)
    /\ In p (m_params m) /\ p_name p = name
    /\ required d = negb (has_default p)
    /\ default d = p_default p
    /\ (required d = true <-> p_default p = None)
    /\ (required d = false <-> exists v, default d = Some v).
Proof.
  intros Hb Hc Hd. unfold build_registry in Hb.
  apply build_inv in Hb. destruct Hb as (cs & Hcs & Hs & _).
  cbn [subparsers app] in Hs. rewrite Hs in Hc.
  destruct (mapM_In _ _ _ Hcs _ Hc) as (m & Hm & Hpm).
  apply filter_In in Hm. destruct Hm as [Hm _].
  destruct (parse_member_args m c name d Hpm Hd) as (p & lines & di & Hp & Hn & Hpp).
  destruct (parse_param_required _ _ _ _ Hpp) as [Hr Hdef].
  exists m, p.
  repeat (split; [first [assumption | exact (parse_member_name m c Hpm)]|]).
  rewrite Hr, Hdef. unfold has_default.
  destruct (p_default p) as [v|]; cbn; split; split; try congruence; eauto.
  intros [v' Hv]. discriminate.
Qed.

Lemma C6_witness :
  In run_detector_command (subparsers sample_registry)
  /\ In ("detector_id", uuid_arg "detector") (c_args run_detector_command)
  /\ required (uuid_arg "detector") = true /\ default (uuid_arg "detector") = None.
Proof.
  assert (Hc : In run_detector_command (subparsers sample_registry)).
  { vm_compute. right. right. left. reflexivity. }
  assert (Hb : build_registry sample_members ∅ = Ok sample_registry).
  { vm_compute. reflexivity. }
  split; [exact Hc|]. split; [left; reflexivity|].
  destruct (C6_required_iff_no_default sample_members ∅ sample_registry
              run_detector_command "detector_id" (uuid_arg "detector")
              Hb Hc ltac:(left; reflexivity))
    as (m & p & _ & _ & _ & _ & Hr & Hd & _).
  split; reflexivity.
Defined.

(** * Properties of the identifier converter *)

Section UuidText.

(** What being a hexadecimal digit excludes, and the value of the digit. *)
Lemma hex_digit_facts c :
  is_hex_digit c = true ->
  PyInt.int_space c = false
  /\ Ascii.eqb c "_" = false
  /\ Ascii.eqb c "+" = false
  /\ Ascii.eqb c "-" = false
  /\ Ascii.eqb c "x" || Ascii.eqb c "X" = false
  /\ Ascii.eqb "u" c = false
  /\ PyStr.mem_char "{}" c = false
  /\ Ascii.eqb "_" c = false
  /\ Ascii.eqb "-" c = false
  /\ exists d, PyInt.digit_val 16 c = Some d /\ 0 <= d < 16.
Proof.
  destruct c as [[] [] [] [] [] [] [] []]; intros H; vm_compute in H;
    try discriminate H;
    repeat (split; [reflexivity|]);
    eexists; (split; [vm_compute; reflexivity | lia]).
Qed.

Lemma plain_not_u c : plain c -> Ascii.eqb "u" c = false.
Proof.
  intros [H | ->]; [apply hex_digit_facts in H; tauto | reflexivity].
Qed.

Lemma plain_not_brace c : plain c -> PyStr.mem_char "{}" c = false.
Proof.
  intros [H | ->]; [apply hex_digit_facts in H; tauto | reflexivity].
Qed.

Lemma of_chars_chars s : PyStr.of_chars (PyStr.chars s) = s.
Proof. apply string_of_list_ascii_of_string. Qed.

Lemma chars_of_chars l : PyStr.chars (PyStr.of_chars l) = l.
Proof. apply list_ascii_of_string_of_list_ascii. Qed.

Lemma chars_app s t : PyStr.chars (s ++ t) = (PyStr.chars s ++ PyStr.chars t)%list.
Proof.
  induction s as [|c s IH]; [reflexivity|].
  change (PyStr.chars (String c s ++ t)) with (c :: PyStr.chars (s ++ t)).
  rewrite IH. reflexivity.
Qed.

(** [replace] leaves a text alone in which the first character of [old]
    does not occur. *)
Lemma replace_absent a old new s :
  Forall (fun c => Ascii.eqb a c = false) (PyStr.chars s) ->
  PyStr.replace_from (String a old) new O s = s.
Proof.
  induction s as [|c s IH]; intros H; [reflexivity|].
  cbn in H. inversion H as [|x l Hc Hs]; subst.
  cbn [PyStr.replace_from PyStr.startswith]. rewrite Hc. cbn [andb].
  f_equal. apply IH. exact Hs.
Qed.

Lemma lstrip_by_none f l :
  Forall (fun c => f c = false) l -> PyStr.lstrip_by f l = l.
Proof.
  destruct l as [|c l]; [reflexivity|].
  intros H. inversion H; subst. cbn. rewrite H2. reflexivity.
Qed.

Lemma strip_by_none f s :
  Forall (fun c => f c = false) (PyStr.chars s) -> PyStr.strip_by f s = s.
Proof.
  intros H. unfold PyStr.strip_by.
  rewrite (lstrip_by_none f _ H).
  rewrite lstrip_by_none by (apply List.Forall_rev; exact H).
  rewrite rev_involutive. apply of_chars_chars.
Qed.

(** Stripping a set of characters off a text wrapped in two of them. *)
Lemma strip_by_wrapped f a b s :
  f a = true -> f b = true -> s <> EmptyString ->
  Forall (fun c => f c = false) (PyStr.chars s) ->
  PyStr.strip_by f (String a (s ++ String b EmptyString)) = s.
Proof.
  intros Ha Hb Hne H. unfold PyStr.strip_by.
  assert (Hch : PyStr.chars (String a (s ++ String b EmptyString))
                = a :: (PyStr.chars s ++ [b])%list).
  { change (PyStr.chars (String a (s ++ String b EmptyString)))
      with (a :: PyStr.chars (s ++ String b EmptyString)).
    rewrite chars_app. reflexivity. }
  rewrite Hch. cbn [PyStr.lstrip_by]. rewrite Ha.
  assert (Hl : PyStr.lstrip_by f (PyStr.chars s ++ [b])%list = (PyStr.chars s ++ [b])%list).
  { destruct (PyStr.chars s) as [|c l] eqn:E.
    - exfalso. apply Hne. rewrite <- (of_chars_chars s), E. reflexivity.
    - inversion H; subst. cbn. rewrite H2. reflexivity. }
  rewrite Hl, rev_unit. cbn [PyStr.lstrip_by]. rewrite Hb.
  rewrite lstrip_by_none by (apply List.Forall_rev; exact H).
  rewrite rev_involutive. apply of_chars_chars.
Qed.

(** Replacing the hyphen by nothing filters the hyphens out. *)
Lemma replace_hyphens s :
  PyStr.replace "-" "" s
  = PyStr.of_chars (List.filter (fun c => negb (Ascii.eqb "-" c)) (PyStr.chars s)).
Proof.
  unfold PyStr.replace.
  induction s as [|c s IH]; [reflexivity|].
  cbn [PyStr.replace_from PyStr.startswith String.length Nat.pred].
  rewrite andb_true_r.
  change (PyStr.chars (String c s)) with (c :: PyStr.chars s).
  cbn [List.filter].
  destruct (Ascii.eqb "-" c); cbn [negb]; rewrite IH; reflexivity.
Qed.

Lemma length_of_chars l : String.length (PyStr.of_chars l) = length l.
Proof.
  unfold PyStr.of_chars.
  induction l as [|c l IH]; cbn; [reflexivity | f_equal; exact IH].
Qed.

(** A run of hexadecimal digits is read to its end. *)
Lemma scan_digits_hex l : forall acc n,
  all_hex l -> 0 <= acc ->
  exists v,
    PyInt.scan_digits 16 false acc n (PyStr.of_chars l)
    = Some (v, (n + length l)%nat, EmptyString)
    /\ acc * 16 ^ Z.of_nat (length l) <= v < (acc + 1) * 16 ^ Z.of_nat (length l).
Proof.
  induction l as [|c l IH]; intros acc n Hl Hacc.
  - exists acc. cbn. rewrite Nat.add_0_r. split; [reflexivity | lia].
  - inversion Hl as [|x l' Hc Hl']; subst.
    destruct (hex_digit_facts c Hc) as (_ & Hus & _ & _ & _ & _ & _ & _ & _ & d & Hd & Hr).
    destruct (IH (16 * acc + d) (S n) Hl' ltac:(lia)) as (v & Hv & Hb).
    exists v. split.
    + change (PyStr.of_chars (c :: l)) with (String c (PyStr.of_chars l)).
      cbn [PyInt.scan_digits]. rewrite Hus, Hd, Hv.
      f_equal. f_equal. f_equal. cbn [length]. lia.
    + cbn [length]. rewrite Nat2Z.inj_succ, Z.pow_succ_r by lia.
      assert (0 < 16 ^ Z.of_nat (length l)) by (apply Z.pow_pos_nonneg; lia).
      nia.
Qed.

(** [int(text, 16)] reads a non-empty run of hexadecimal digits. *)
Lemma int16_hex l :
  l <> [] -> all_hex l ->
  exists v, Uuid.int16 (PyStr.of_chars l) = Some v /\ 0 <= v < 16 ^ Z.of_nat (length l).
Proof.
  intros Hne Hl. destruct l as [|c l]; [congruence|].
  inversion Hl as [|x l' Hc Hl']; subst.
  destruct (hex_digit_facts c Hc) as (Hsp & _ & Hplus & Hminus & _ & _ & _ & Hus & _ & _).
  destruct (scan_digits_hex (c :: l) 0 O Hl ltac:(lia)) as (v & Hv & Hb).
  exists v. split; [|lia].
  unfold Uuid.int16, PyInt.int_base.
  assert (Hskip : PyInt.skip_space (PyStr.of_chars (c :: l)) = PyStr.of_chars (c :: l)).
  { unfold PyInt.skip_space. rewrite chars_of_chars. cbn. rewrite Hsp. reflexivity. }
  rewrite Hskip.
  change (PyStr.of_chars (c :: l)) with (String c (PyStr.of_chars l)) in *.
  cbn [PyInt.take_sign]. rewrite Hplus, Hminus.
  assert (Hpre : PyInt.take_prefix 16 (String c (PyStr.of_chars l))
                 = String c (PyStr.of_chars l)).
  { destruct l as [|x l]; [reflexivity|].
    inversion Hl' as [|y l'' Hx _]; subst.
    destruct (hex_digit_facts x Hx) as (_ & _ & _ & _ & Hxx & _).
    change (PyStr.of_chars (x :: l)) with (String x (PyStr.of_chars l)).
    cbn [PyInt.take_prefix]. rewrite Hxx, andb_false_r. reflexivity. }
  rewrite Hpre. cbn [PyStr.startswith]. rewrite Hus. cbn [andb].
  rewrite Hv. cbn [length Nat.add].
  change (PyInt.skip_space EmptyString) with EmptyString. cbn iota.
  f_equal. apply Z.mul_1_l.
Qed.

Lemma hexcount_S i :
  hexcount (S i) = (hexcount i + if is_hyphen_pos i then 0 else 1)%nat.
Proof.
  unfold hexcount. rewrite seq_S, List.filter_app, List.length_app. cbn.
  destruct (is_hyphen_pos i); reflexivity.
Qed.

(** Without its hyphens, a text in the hyphenated form is a run of
    hexadecimal digits, and it has no other characters. *)
Lemma hyphenated_from_digits s : forall i,
  hyphenated_from i s = true ->
  all_hex (List.filter (fun c => negb (Ascii.eqb "-" c)) (PyStr.chars s))
  /\ (length (List.filter (fun c => negb (Ascii.eqb "-" c)) (PyStr.chars s))
      + hexcount i = 32)%nat
  /\ Forall plain (PyStr.chars s).
Proof.
  induction s as [|c s IH]; intros i H.
  - cbn in H. apply Nat.eqb_eq in H. subst i.
    repeat split; try constructor.
  - cbn [hyphenated_from] in H.
    apply andb_prop in H. destruct H as [H Hrest].
    apply andb_prop in H. destruct H as [_ Hc].
    destruct (IH _ Hrest) as (Hh & Hlen & Hp).
    rewrite hexcount_S in Hlen.
    change (PyStr.chars (String c s)) with (c :: PyStr.chars s).
    cbn [List.filter].
    destruct (is_hyphen_pos i).
    + apply Ascii.eqb_eq in Hc. subst c.
      change (Ascii.eqb "-" "-") with true. cbn [negb].
      repeat split; [exact Hh | lia | constructor; [right; reflexivity | exact Hp]].
    + destruct (hex_digit_facts c Hc) as (_ & _ & _ & _ & _ & _ & _ & _ & Hhy & _).
      rewrite Hhy. cbn [negb length].
      repeat split; [constructor; assumption | lia
                    | constructor; [left; exact Hc | exact Hp]].
Qed.

(** [UUID] accepts a text that its cleaning steps turn into thirty-two
    hexadecimal digits. *)
Lemma UUID_of_clean s l :
  PyStr.replace "-" ""
    (PyStr.strip_chars "{}" (PyStr.replace "uuid:" "" (PyStr.replace "urn:" "" s)))
  = PyStr.of_chars l ->
  length l = 32%nat -> all_hex l ->
  exists v, Uuid.UUID s (Some 4) = Ok v.
Proof.
  intros Hclean Hlen Hl. unfold Uuid.UUID. rewrite Hclean.
  rewrite length_of_chars, Hlen. cbn [Nat.eqb negb].
  destruct (int16_hex l) as (v & Hv & Hb); [intros ->; discriminate | exact Hl |].
  rewrite Hv, Hlen in *.
  assert (Hrange : (0 <=? v) && (v <? Z.shiftl 1 128) = true).
  { apply andb_true_intro. split; [apply Z.leb_le; lia|].
    apply Z.ltb_lt. change (Z.shiftl 1 128) with (16 ^ Z.of_nat 32). lia. }
  rewrite Hrange. cbn [negb]. cbn. eexists. reflexivity.
Qed.

Lemma uuid_type_of_UUID s v : Uuid.UUID s (Some 4) = Ok v -> uuid_type s = Ok s.
Proof. unfold uuid_type, uuid_type_v. intros ->. reflexivity. Qed.

Lemma all_plain_not_u l : Forall plain l -> Forall (fun c => Ascii.eqb "u" c = false) l.
Proof. apply List.Forall_impl. exact plain_not_u. Qed.

Lemma all_plain_not_brace l :
  Forall plain l -> Forall (fun c => PyStr.mem_char "{}" c = false) l.
Proof. apply List.Forall_impl. exact plain_not_brace. Qed.

(** The hyphenated form is accepted and given back as it is. *)
Lemma uuid_type_hyphenated s : hyphenated s = true -> uuid_type s = Ok s.
Proof.
  intros H. destruct (hyphenated_from_digits s 0 H) as (Hh & Hlen & Hp).
  change (hexcount 0) with O in Hlen. rewrite Nat.add_0_r in Hlen.
  assert (Hclean :
    PyStr.replace "-" ""
      (PyStr.strip_chars "{}" (PyStr.replace "uuid:" "" (PyStr.replace "urn:" "" s)))
    = PyStr.of_chars (List.filter (fun c => negb (Ascii.eqb "-" c)) (PyStr.chars s))).
  { unfold PyStr.replace at 2 3. unfold PyStr.strip_chars.
    rewrite (replace_absent "u" "rn:" "" s) by (apply all_plain_not_u; exact Hp).
    rewrite (replace_absent "u" "uid:" "" s) by (apply all_plain_not_u; exact Hp).
    rewrite strip_by_none by (apply all_plain_not_brace; exact Hp).
    apply replace_hyphens. }
  destruct (UUID_of_clean s _ Hclean Hlen Hh) as (v & Hv).
  exact (uuid_type_of_UUID s v Hv).
Qed.

End UuidText.

Section UuidForms.

Variable h : string.
Hypothesis Hh : hyphenated h = true.

Let digits : list ascii :=
  List.filter (fun c => negb (Ascii.eqb "-" c)) (PyStr.chars h).

Lemma digits_hex : Forall (fun c => is_hex_digit c = true) digits.
Proof. apply (hyphenated_from_digits h 0 Hh). Qed.

Lemma digits_length : length digits = 32%nat.
Proof.
  destruct (hyphenated_from_digits h 0 Hh) as (_ & Hlen & _).
  change (hexcount 0) with O in Hlen. rewrite Nat.add_0_r in Hlen. exact Hlen.
Qed.

Lemma h_plain : Forall plain (PyStr.chars h).
Proof. apply (hyphenated_from_digits h 0 Hh). Qed.

Lemma h_nonempty : h <> EmptyString.
Proof. intros E. rewrite E in Hh. discriminate Hh. Qed.

Lemma uuid_type_of_clean s :
  PyStr.replace "-" ""
    (PyStr.strip_chars "{}" (PyStr.replace "uuid:" "" (PyStr.replace "urn:" "" s)))
  = PyStr.of_chars digits ->
  uuid_type s = Ok s.
Proof.
  intros Hclean.
  destruct (UUID_of_clean s digits Hclean digits_length digits_hex) as (v & Hv).
  exact (uuid_type_of_UUID s v Hv).
Qed.

Lemma filter_digits : List.filter (fun c => negb (Ascii.eqb "-" c)) digits = digits.
Proof.
  pose proof digits_hex as H. induction H as [|c l Hc Hl IH]; [reflexivity|].
  cbn [List.filter].
  destruct (hex_digit_facts c Hc) as (_ & _ & _ & _ & _ & _ & _ & _ & Hhy & _).
  rewrite Hhy. cbn [negb]. f_equal. exact IH.
Qed.

(** The digits alone, without hyphens. *)
Lemma uuid_type_bare : uuid_type (PyStr.replace "-" "" h) = Ok (PyStr.replace "-" "" h).
Proof.
  apply uuid_type_of_clean. rewrite (replace_hyphens h). fold digits.
  assert (Hp : Forall plain (PyStr.chars (PyStr.of_chars digits))).
  { rewrite chars_of_chars. eapply List.Forall_impl; [|exact digits_hex].
    intros c Hc. left. exact Hc. }
  unfold PyStr.replace at 2 3. unfold PyStr.strip_chars.
  rewrite (replace_absent "u" "rn:" "" _) by (apply all_plain_not_u; exact Hp).
  rewrite (replace_absent "u" "uid:" "" _) by (apply all_plain_not_u; exact Hp).
  rewrite strip_by_none by (apply all_plain_not_brace; exact Hp).
  rewrite replace_hyphens, chars_of_chars, filter_digits. reflexivity.
Qed.

(** The hyphenated form in braces. *)
Lemma uuid_type_braced :
  uuid_type ("{" ++ h ++ "}") = Ok ("{" ++ h ++ "}").
Proof.
  apply uuid_type_of_clean.
  change ("{" ++ h ++ "}") with (String "{" (h ++ String "}" EmptyString)).
  assert (Hu : Forall (fun c => Ascii.eqb "u" c = false)
                 (PyStr.chars (String "{" (h ++ String "}" EmptyString)))).
  { change (PyStr.chars (String "{" (h ++ String "}" EmptyString)))
      with ("{"%char :: PyStr.chars (h ++ String "}" EmptyString)).
    rewrite chars_app. constructor; [reflexivity|].
    apply List.Forall_app. split; [apply all_plain_not_u, h_plain|].
    repeat constructor. }
  unfold PyStr.replace at 2 3. unfold PyStr.strip_chars.
  rewrite (replace_absent "u" "rn:" "" _) by exact Hu.
  rewrite (replace_absent "u" "uid:" "" _) by exact Hu.
  rewrite strip_by_wrapped;
    [apply replace_hyphens | reflexivity | reflexivity | exact h_nonempty
    | apply all_plain_not_brace, h_plain].
Qed.

(** The hyphenated form as a URN. *)
Lemma uuid_type_urn : uuid_type ("urn:uuid:" ++ h) = Ok ("urn:uuid:" ++ h).
Proof.
  apply uuid_type_of_clean.
  assert (H1 : PyStr.replace "urn:" "" ("urn:uuid:" ++ h) = "uuid:" ++ h).
  { unfold PyStr.replace. cbv [String.append]. cbn.
    rewrite (replace_absent "u" "rn:" "" h) by (apply all_plain_not_u, h_plain).
    reflexivity. }
  assert (H2 : PyStr.replace "uuid:" "" ("uuid:" ++ h) = h).
  { unfold PyStr.replace. cbv [String.append]. cbn.
    apply (replace_absent "u" "uid:" "" h). apply all_plain_not_u, h_plain. }
  rewrite H1, H2. unfold PyStr.strip_chars.
  rewrite strip_by_none by (apply all_plain_not_brace, h_plain).
  apply replace_hyphens.
Qed.

End UuidForms.

(** [UUID] raises nothing but [ValueError], so [uuid_type] raises nothing
    but [ArgumentTypeError]. *)
Lemma UUID_raises_ValueError s version e :
  Uuid.UUID s version = Raise e -> exn_cls e = ValueError.
Proof.
  unfold Uuid.UUID.
  repeat match goal with
         | |- context [if ?b then _ else _] => destruct b
         | |- context [match ?x with _ => _ end] => destruct x
         end; intros H; inversion H; reflexivity.
Qed.

Lemma uuid_type_rejects s e :
  Uuid.UUID s (Some 4) = Raise e ->
  uuid_type s = Raise (Exn ArgumentTypeError ("invalid UUID value: '" ++ s ++ "'")).
Proof.
  intros H. unfold uuid_type, uuid_type_v.
  rewrite H, (UUID_raises_ValueError _ _ _ H). reflexivity.
Qed.

Lemma uuid_type_returns_input s r : uuid_type s = Ok r -> r = s.
Proof.
  unfold uuid_type, uuid_type_v.
  destruct (Uuid.UUID s (Some 4)) as [v|e].
  - intros H. inversion H. reflexivity.
  - destruct (exn_cls e); discriminate.
Qed.

(** * Properties of parsing *)

Section Parsing.

Variable w : world.

Lemma uuid_type_raise_class s e : uuid_type s = Raise e -> exn_cls e = ArgumentTypeError.
Proof.
  unfold uuid_type, uuid_type_v.
  destruct (Uuid.UUID s (Some 4)) as [v|e'] eqn:E; [discriminate|].
  rewrite (UUID_raises_ValueError _ _ _ E). intros H. inversion H. reflexivity.
Qed.

(** The conversion of an argument fails with [ArgumentError] only. *)
Lemma get_value_error_class t s e :
  get_value w t s = Raise e -> exn_cls e = ArgumentError.
Proof.
  unfold get_value, usage_error.
  destruct t as [[|a]|]; [| |discriminate].
  - destruct (uuid_type s) as [v|e'] eqn:E; [discriminate|].
    rewrite (uuid_type_raise_class _ _ E). intros H. inversion H. reflexivity.
  - destruct a; try discriminate;
      repeat match goal with
             | |- context [match ?x with _ => _ end] => destruct x
             end; intros H; inversion H; reflexivity.
Qed.

Lemma check_value_error_class a v e :
  check_value a v = Raise e -> exn_cls e = ArgumentError.
Proof.
  unfold check_value, usage_error.
  destruct (choices a); [|discriminate].
  destruct (existsb (py_eq v) l); [discriminate|].
  intros H. inversion H. reflexivity.
Qed.

Lemma consume_error_class args ns occ e :
  consume w args ns occ = Raise e -> exn_cls e = ArgumentError.
Proof.
  unfold consume, usage_error.
  destruct occ as [|param on|param s]; [discriminate| |].
  - destruct (lookup_arg args param) as [a|]; [destruct (action a) as [[]|]|];
      try discriminate; intros H; inversion H; reflexivity.
  - destruct (lookup_arg args param) as [a|]; [destruct (action a) as [[]|]|];
      try (intros H; inversion H; reflexivity).
    destruct (get_value w (type_ a) s) as [v|e'] eqn:E; cbn [bind].
    + destruct (check_value a v) as [[]|e'] eqn:E'; cbn [bind]; [discriminate|].
      intros H. inversion H; subst. exact (check_value_error_class _ _ _ E').
    + intros H. inversion H; subst. exact (get_value_error_class _ _ _ E).
Qed.






End Parsing.

(** C9.  Whenever [uuid_type] succeeds it gives back its input, character
    for character.  It follows the lenient reading of [UUID]: besides the
    hyphenated form, in either case of the digits and whatever the digit
    in the version position, the bare digits, the form in braces and the
    URN form are accepted, and each is given back as it was written. *)
Theorem C9_validator_returns_input_verbatim (s r h : string) :
  uuid_type s = Ok r ->
  hyphenated h = true ->
  r = s
  /\ uuid_type h = Ok h
  /\ uuid_type (PyStr.replace "-" "" h) = Ok (PyStr.replace "-" "" h)
  /\ uuid_type ("{" ++ h ++ "}") = Ok ("{" ++ h ++ "}")
  /\ uuid_type ("urn:uuid:" ++ h) = Ok ("urn:uuid:" ++ h).
Proof.
  intros Hs Hh.
  split; [exact (uuid_type_returns_input s r Hs)|].
  split; [exact (uuid_type_hyphenated h Hh)|].
  split; [exact (uuid_type_bare h Hh)|].
  split; [exact (uuid_type_braced h Hh) | exact (uuid_type_urn h Hh)].
Qed.

Lemma C9_witness :
  uuid_type "{123E4567-E89B-12D3-A456-426614174000}"
  = Ok "{123E4567-E89B-12D3-A456-426614174000}"
  /\ uuid_type "123E4567E89B12D3A456426614174000" = Ok "123E4567E89B12D3A456426614174000"
  /\ uuid_type "urn:uuid:123E4567-E89B-12D3-A456-426614174000"
     = Ok "urn:uuid:123E4567-E89B-12D3-A456-426614174000".
Proof.
  destruct (C9_validator_returns_input_verbatim
              "{123E4567-E89B-12D3-A456-426614174000}"
              "{123E4567-E89B-12D3-A456-426614174000}" upper_v1_uuid)
    as (_ & _ & Hbare & Hbraced & Hurn).
  - reflexivity.
  - reflexivity.
  - split; [exact Hbraced|]. split; [exact Hbare | exact Hurn].
Defined.

(** * More on the two renamings *)

Lemma replace_char_length a b s :
  String.length (PyStr.replace (String a EmptyString) (String b EmptyString) s)
  = String.length s.
Proof.
  unfold PyStr.replace. induction s as [|c s IH]; [reflexivity|].
  rewrite replace_char_cons. cbn [String.length]. rewrite IH. reflexivity.
Qed.

Lemma replace_char_removes a b s :
  Ascii.eqb a b = false ->
  PyStr.contains (String a EmptyString)
    (PyStr.replace (String a EmptyString) (String b EmptyString) s) = false.
Proof.
  intros Hab. unfold PyStr.replace. induction s as [|c s IH]; [reflexivity|].
  rewrite replace_char_cons. cbn [PyStr.contains PyStr.startswith].
  rewrite IH, andb_true_r, orb_false_r.
  destruct (Ascii.eqb a c) eqn:E; [exact Hab | exact E].
Qed.

(** X1.  On a name without a hyphen, as every method name is, turning the
    underscores into hyphens and back gives the name again; the command
    name has the length of the method name and no underscore is left in
    it. *)
Theorem X1_renaming_round_trip (fn : string) :
  PyStr.contains "-" fn = false ->
  _cmd_arg_to_api_arg (api_arg_to_cmd_arg fn) = fn
  /\ String.length (api_arg_to_cmd_arg fn) = String.length fn
  /\ PyStr.contains "_" (api_arg_to_cmd_arg fn) = false.
Proof.
  intros H. split; [exact (cmd_arg_roundtrip fn H)|].
  split; [apply replace_char_length | apply replace_char_removes; reflexivity].
Qed.

Lemma X1_witness :
  _cmd_arg_to_api_arg (api_arg_to_cmd_arg "get_raster_detection_areas")
  = "get_raster_detection_areas".
Proof.
  apply (X1_renaming_round_trip "get_raster_detection_areas"). reflexivity.
Defined.

(** * More on the dispatcher *)

Lemma lookup_by_list (cm : commands_map_t) (name : string)
    (l : list (string * option coercion)) :
  map_to_list <$> (cm !! name) = Some l -> cm !! name = Some (list_to_map l).
Proof.
  destruct (cm !! name) as [m|]; [|discriminate].
  cbn. intros [= <-]. by rewrite list_to_map_to_list.
Qed.

Lemma is_Ok_get {A} (d : A) (r : result A) : is_Ok r = true -> r = Ok (get_Ok d r).
Proof. destruct r; [reflexivity|discriminate]. Qed.

Lemma startswith_app s t : PyStr.startswith s (s ++ t) = true.
Proof.
  induction s as [|c s IH]; [reflexivity|].
  change (String c s ++ t) with (String c (s ++ t)).
  cbn [PyStr.startswith]. rewrite Ascii.eqb_refl. exact IH.
Qed.

Lemma contains_prefix s t : PyStr.contains s (s ++ t) = true.
Proof.
  destruct s as [|c s]; [destruct t; reflexivity|].
  change (String c s ++ t) with (String c (s ++ t)).
  cbn [PyStr.contains]. change (String c (s ++ t)) with (String c s ++ t).
  rewrite startswith_app. reflexivity.
Qed.

Lemma contains_skip s c t : PyStr.contains s t = true -> PyStr.contains s (String c t) = true.
Proof. intros H. cbn [PyStr.contains]. rewrite H. apply orb_true_r. Qed.

Lemma red_contains text : PyStr.contains text (red text) = true.
Proof.
  unfold red.
  change (String "027" "[91m" ++ text ++ String "027" "[00m")
    with (String "027" (String "[" (String "9" (String "1" (String "m"
            (text ++ String "027" "[00m")))))).
  repeat apply contains_skip. apply contains_prefix.
Qed.

(** X2.  An API error or a value error raised inside the [try] block is
    never swallowed: it is logged at error severity and the process is
    ended through [sys.exit] with the text of the error, in red, as its
    message, so with status 1. *)
Theorem X2_api_error_ends_the_process
    (w : world) (cm : commands_map_t) (st : log_state) (o : options)
    (name : string) (params : gmap string (option coercion))
    (t : list event) (e : exn) :
  api_key_set w = true ->
  command o = Some name ->
  cm !! name = Some params ->
  client_init w = None ->
  guarded_call w (fst (apply_verbosity (verbose o) st)) o name
    (_cmd_arg_to_api_arg name) params = (t, Raise e) ->
  is_api_or_value_error e = true ->
  outcome_of (_handle_command w cm st o) = Exited (ExitMessage (red (exn_msg e)))
  /\ exit_status (outcome_of (_handle_command w cm st o)) = Some 1
  /\ PyStr.contains (exn_msg e) (red (exn_msg e)) = true
  /\ exists pre,
       trace_of (_handle_command w cm st o)
       = (pre ++ log (state_of (_handle_command w cm st o)) ERROR (MsgApiError e))%list.
Proof.
  intros Hkey Hcmd Hcm Hinit Hg Herr.
  unfold _handle_command.
  destruct (apply_verbosity (verbose o) st) as [st' t0]. cbn [fst] in Hg.
  rewrite Hkey, Hcmd, Hcm, Hinit, Hg, Herr.
  cbn [negb outcome_of trace_of state_of fst snd exit_status].
  split; [reflexivity|]. split; [reflexivity|]. split; [apply red_contains|].
  rewrite app_assoc. eexists. reflexivity.
Qed.

Lemma X2_witness :
  outcome_of (_handle_command (failing_world not_found) (commands_map sample_registry)
                initial_log_state list_rasters_options)
  = Exited (ExitMessage (red "404: detector not found")).
Proof.
  apply (X2_api_error_ends_the_process (failing_world not_found)
           (commands_map sample_registry) initial_log_state list_rasters_options
           "list-rasters" list_rasters_params
           (fst (guarded_call (failing_world not_found) initial_log_state
                   list_rasters_options "list-rasters" "list_rasters"
                   list_rasters_params))
           not_found).
  - reflexivity.
  - reflexivity.
  - apply lookup_by_list. vm_compute. reflexivity.
  - reflexivity.
  - vm_compute. reflexivity.
  - reflexivity.
Defined.

Lemma rendered_log st lvl msg : rendered (log st lvl msg) = [].
Proof. unfold log. destruct (effective_level st <=? lvl); reflexivity. Qed.

Lemma rendered_app t1 t2 : rendered (t1 ++ t2) = (rendered t1 ++ rendered t2)%list.
Proof. apply List.filter_app. Qed.

Lemma rendered_verbosity v st : rendered (snd (apply_verbosity v st)) = [].
Proof.
  rewrite apply_verbosity_table. destruct (level_for_count v); reflexivity.
Qed.

(** X3.  With the key set and the client built, the method is called with
    the collected arguments, and what it returns decides what is rendered:
    nothing for [None], the value itself otherwise, and for a page of
    results the list it is turned into, after that list is made.  Unless
    making the list fails, the dispatcher then returns. *)
Theorem X3_result_is_rendered
    (w : world) (cm : commands_map_t) (st : log_state) (o : options)
    (name : string) (params : gmap string (option coercion))
    (args : gmap string value) (r : returned) :
  api_key_set w = true ->
  command o = Some name ->
  cm !! name = Some params ->
  client_init w = None ->
  client_getattr w (_cmd_arg_to_api_arg name) = None ->
  collect_args params o = Ok args ->
  client_call w (_cmd_arg_to_api_arg name) args = Returns r ->
  In (EvCall (_cmd_arg_to_api_arg name) args) (trace_of (_handle_command w cm st o))
  /\ rendered (trace_of (_handle_command w cm st o)) = rendering_of r
  /\ match r with
     | RetPage (Raise _) => True
     | _ => outcome_of (_handle_command w cm st o) = Returned
     end.
Proof.
  intros Hkey Hcmd Hcm Hinit Hget Hargs Hcall.
  unfold _handle_command.
  pose proof (rendered_verbosity (verbose o) st) as Hv.
  destruct (apply_verbosity (verbose o) st) as [st' t0]. cbn [snd] in Hv.
  rewrite Hkey, Hcmd, Hcm, Hinit. cbn [negb].
  unfold guarded_call. rewrite Hget, Hargs, Hcall.
  destruct r as [|v|[items|e]];
    [ | | |destruct (is_api_or_value_error e); [|destruct (is_Exception e)]];
    unfold trace_of, outcome_of; cbn [fst snd];
    (split; [repeat rewrite in_app_iff; cbn [In]; solve [intuition auto]|]);
    (split; [|first [reflexivity | exact I]]);
    repeat rewrite rendered_app; rewrite ?rendered_log, Hv; reflexivity.
Qed.

Lemma X3_witness :
  rendered (trace_of (_handle_command paging_world (commands_map sample_registry)
                        initial_log_state list_rasters_options))
  = [EvMaterialize; EvPrettyPrint (VList [VInt 1; VInt 2])].
Proof.
  apply (X3_result_is_rendered paging_world (commands_map sample_registry)
           initial_log_state list_rasters_options "list-rasters" list_rasters_params
           (get_Ok ∅ (collect_args list_rasters_params list_rasters_options))
           (RetPage (Ok [VInt 1; VInt 2]))).
  - reflexivity.
  - reflexivity.
  - apply lookup_by_list. vm_compute. reflexivity.
  - reflexivity.
  - reflexivity.
  - apply is_Ok_get. vm_compute. reflexivity.
  - reflexivity.
Defined.

Lemma log_calls_only n params o st lvl msg :
  Forall (calls_only n params o) (log st lvl msg).
Proof. unfold log. destruct (effective_level st <=? lvl); repeat constructor. Qed.

Lemma verbosity_calls_only n params o v st :
  Forall (calls_only n params o) (snd (apply_verbosity v st)).
Proof.
  rewrite apply_verbosity_table. destruct (level_for_count v); repeat constructor.
Qed.

Ltac calls_only_tac :=
  repeat first
    [ apply log_calls_only
    | apply List.Forall_nil
    | apply List.Forall_cons; [cbn; auto|]
    | apply List.Forall_app; split
    | assumption ].

Lemma guarded_call_calls_only w st o name mname params :
  Forall (calls_only mname params o) (fst (guarded_call w st o name mname params)).
Proof.
  unfold guarded_call.
  destruct (client_getattr w mname); [calls_only_tac|].
  destruct (collect_args params o) as [args|e] eqn:E; [|calls_only_tac].
  assert (Hargs : args = map_imap (fun k _ => attrs o !! k) params).
  { unfold collect_args in E. destruct (map_fold _ _ _); inversion E. reflexivity. }
  destruct (client_call w mname args) as [[| v | [items | e]] | e];
    cbn [fst]; calls_only_tac.
Qed.

(** X4.  For the command of a method whose name has no hyphen, the
    dispatcher asks the client for no method but that one, and calls
    nothing but that one, with one argument per parameter name registered
    for the command, each taken from the namespace under the same name. *)
Theorem X4_dispatch_reaches_the_method
    (w : world) (cm : commands_map_t) (st : log_state) (o : options)
    (fn : string) (params : gmap string (option coercion)) :
  PyStr.contains "-" fn = false ->
  command o = Some (api_arg_to_cmd_arg fn) ->
  cm !! api_arg_to_cmd_arg fn = Some params ->
  Forall (calls_only fn params o) (trace_of (_handle_command w cm st o)).
Proof.
  intros Hfn Hcmd Hcm. unfold _handle_command.
  pose proof (verbosity_calls_only fn params o (verbose o) st) as Hv.
  destruct (apply_verbosity (verbose o) st) as [st' t0]. cbn [snd] in Hv.
  rewrite Hcmd, Hcm, (cmd_arg_roundtrip fn Hfn).
  pose proof (guarded_call_calls_only w st' o (api_arg_to_cmd_arg fn) fn params) as G.
  destruct (negb (api_key_set w));
    [|destruct (client_init w);
      [|destruct (guarded_call w st' o (api_arg_to_cmd_arg fn) fn params) as [t4 r];
        cbn [fst] in G;
        destruct r as [[]|err];
        [|destruct (is_api_or_value_error err); [|destruct (is_Exception err)]]]].
  all: unfold trace_of; cbn [fst snd]; calls_only_tac.
Qed.

Lemma X4_witness :
  Forall (calls_only "list_rasters" list_rasters_params list_rasters_options)
         (trace_of (_handle_command paging_world (commands_map sample_registry)
                      initial_log_state list_rasters_options)).
Proof.
  apply (X4_dispatch_reaches_the_method paging_world (commands_map sample_registry)
           initial_log_state list_rasters_options "list_rasters").
  - reflexivity.
  - reflexivity.
  - apply lookup_by_list. vm_compute. reflexivity.
Defined.

(** X5.  The construction of the client is outside the [try] block: an
    exception it raises, an API error included, is not turned into an exit
    message and is not logged.  The run ends with that exception uncaught;
    its trace is the change of level, if any, the three debug records
    that precede the construction and the construction itself, and
    nothing else: no record above the debug level, no method looked up,
    called or rendered. *)
Theorem X5_constructor_failure_propagates
    (w : world) (cm : commands_map_t) (st : log_state) (o : options)
    (name : string) (params : gmap string (option coercion)) (e : exn) :
  api_key_set w = true ->
  command o = Some name ->
  cm !! name = Some params ->
  client_init w = Some e ->
  outcome_of (_handle_command w cm st o) = Uncaught e
  /\ trace_of (_handle_command w cm st o)
     = (snd (apply_verbosity (verbose o) st)
        ++ log (fst (apply_verbosity (verbose o) st)) DEBUG MsgLoggingLevel
        ++ log (fst (apply_verbosity (verbose o) st)) DEBUG MsgHandlingCommand
        ++ log (fst (apply_verbosity (verbose o) st)) DEBUG MsgParameters
        ++ [EvConstructClient])%list
  /\ (forall lvl msg,
        In (EvLog lvl msg) (trace_of (_handle_command w cm st o)) ->
        lvl = DEBUG /\ In msg [MsgLoggingLevel; MsgHandlingCommand; MsgParameters])
  /\ In EvConstructClient (trace_of (_handle_command w cm st o))
  /\ Forall (fun ev => uses_client ev = false) (trace_of (_handle_command w cm st o)).
Proof.
  intros Hkey Hcmd Hcm Hinit.
  assert (Ht : trace_of (_handle_command w cm st o)
     = (snd (apply_verbosity (verbose o) st)
        ++ log (fst (apply_verbosity (verbose o) st)) DEBUG MsgLoggingLevel
        ++ log (fst (apply_verbosity (verbose o) st)) DEBUG MsgHandlingCommand
        ++ log (fst (apply_verbosity (verbose o) st)) DEBUG MsgParameters
        ++ [EvConstructClient])%list
     /\ outcome_of (_handle_command w cm st o) = Uncaught e).
  { unfold _handle_command.
    destruct (apply_verbosity (verbose o) st) as [st' t0].
    rewrite Hkey, Hcmd, Hcm, Hinit.
    unfold outcome_of, trace_of; cbn [negb fst snd].
    repeat rewrite <- app_assoc. split; reflexivity. }
  destruct Ht as [Ht Ho]. rewrite Ht.
  assert (Hv : forall ev, In ev (snd (apply_verbosity (verbose o) st)) ->
                          exists l, ev = EvSetLevel l).
  { rewrite apply_verbosity_table.
    destruct (level_for_count (verbose o)); cbn [snd]; intros ev Hev;
      [destruct Hev as [<- | []]; eauto | destruct Hev]. }
  assert (Hl : forall s lvl msg ev, In ev (log s lvl msg) -> ev = EvLog lvl msg).
  { intros s lvl msg ev. unfold log.
    destruct (effective_level s <=? lvl); intros Hev;
      [destruct Hev as [<- | []]; reflexivity | destruct Hev]. }
  split; [exact Ho|]. split; [reflexivity|]. split; [|split].
  - intros lvl msg Hin.
    repeat (apply in_app_or in Hin; destruct Hin as [Hin | Hin]).
    + destruct (Hv _ Hin) as [l Hl']. discriminate Hl'.
    + apply Hl in Hin. inversion Hin; subst. split; [reflexivity | cbn; auto].
    + apply Hl in Hin. inversion Hin; subst. split; [reflexivity | cbn; auto].
    + apply Hl in Hin. inversion Hin; subst. split; [reflexivity | cbn; auto].
    + destruct Hin as [Hin | []]. discriminate Hin.
  - repeat (apply in_or_app; right). left. reflexivity.
  - apply List.Forall_forall. intros ev Hin.
    repeat (apply in_app_or in Hin; destruct Hin as [Hin | Hin]).
    + destruct (Hv _ Hin) as [l ->]. reflexivity.
    + apply Hl in Hin. subst. reflexivity.
    + apply Hl in Hin. subst. reflexivity.
    + apply Hl in Hin. subst. reflexivity.
    + destruct Hin as [<- | []]. reflexivity.
Qed.

Lemma X5_witness :
  outcome_of (_handle_command
                (unbuildable_world (Exn APIError "PICTERRA_API_KEY environment variable is not defined"))
                (commands_map sample_registry) initial_log_state list_rasters_options)
  = Uncaught (Exn APIError "PICTERRA_API_KEY environment variable is not defined").
Proof.
  destruct (X5_constructor_failure_propagates
              (unbuildable_world (Exn APIError "PICTERRA_API_KEY environment variable is not defined"))
              (commands_map sample_registry) initial_log_state list_rasters_options
              "list-rasters" list_rasters_params
              (Exn APIError "PICTERRA_API_KEY environment variable is not defined"))
    as (Ho & _).
  - reflexivity.
  - reflexivity.
  - apply lookup_by_list. vm_compute. reflexivity.
  - reflexivity.
  - exact Ho.
Defined.

(** * More on the inference of types *)

Lemma filter_first {A} (f : A -> bool) pre t post :
  Forall (fun a => f a = false) pre -> f t = true ->
  List.filter f (pre ++ t :: post)%list = t :: List.filter f post.
Proof.
  induction pre as [|a pre IH]; intros Hp Ht; cbn [List.filter app].
  - rewrite Ht. reflexivity.
  - inversion Hp; subst. rewrite H1. apply IH; assumption.
Qed.

Lemma filter_first_inv {A} (f : A -> bool) l : forall t rest,
  List.filter f l = t :: rest ->
  exists pre post, l = (pre ++ t :: post)%list /\ Forall (fun a => f a = false) pre /\ f t = true.
Proof.
  induction l as [|a l IH]; intros t rest H; cbn [List.filter] in H; [discriminate|].
  destruct (f a) eqn:E.
  - inversion H; subst. exists [], l. repeat split; [constructor | exact E].
  - destruct (IH _ _ H) as (pre & post & -> & Hp & Ht).
    exists (a :: pre), post. repeat split; [constructor; assumption | exact Ht].
Qed.

Lemma filter_none {A} (f : A -> bool) l :
  Forall (fun a => f a = false) l -> List.filter f l = [].
Proof.
  induction 1 as [|a l Ha _ IH]; cbn [List.filter]; [reflexivity|].
  rewrite Ha. exact IH.
Qed.

(** X6.  When [type(None)] is among the type arguments of the annotation,
    and the annotation is a union or has two arguments or more,
    [is_optional] gives back the first argument that is not [type(None)],
    whatever precedes and follows it, and never [False]; when every
    argument is [type(None)], [next] raises [StopIteration].  The test
    does not ask for a union.  What it gives back is never [type(None)]:
    it is an argument with none but [type(None)] before it. *)
Theorem X6_is_optional_unwraps (field : annotation) :
  In ANoneType (get_args field) ->
  origin_is_Union field = true \/ (1 < length (get_args field))%nat ->
  (forall pre t post,
      get_args field = (pre ++ t :: post)%list ->
      Forall (fun a => is_NoneType a = true) pre ->
      is_NoneType t = false ->
      is_optional field = Ok (Some t))
  /\ (Forall (fun a => is_NoneType a = true) (get_args field) ->
      is_optional field = Raise (Exn StopIteration ""))
  /\ is_optional field <> Ok None
  /\ (forall t, is_optional field = Ok (Some t) ->
        is_NoneType t = false
        /\ exists pre post,
             get_args field = (pre ++ t :: post)%list
             /\ Forall (fun a => is_NoneType a = true) pre).
Proof.
  intros Hnone Hcond.
  assert (Hc : (origin_is_Union field && existsb is_NoneType (get_args field))
               || ((1 <? length (get_args field))%nat
                   && existsb is_NoneType (get_args field)) = true).
  { assert (He : existsb is_NoneType (get_args field) = true).
    { apply existsb_exists. exists ANoneType. split; [exact Hnone | reflexivity]. }
    rewrite He, !andb_true_r. destruct Hcond as [-> | Hlen]; [reflexivity|].
    apply Nat.ltb_lt in Hlen. rewrite Hlen. apply orb_true_r. }
  unfold is_optional. rewrite Hc.
  split; [|split; [|split]].
  - intros pre t post Hargs Hpre Ht. rewrite Hargs.
    rewrite (filter_first (fun a => negb (is_NoneType a)) pre t post).
    + reflexivity.
    + eapply List.Forall_impl; [|exact Hpre]. intros a Ha. cbn. rewrite Ha. reflexivity.
    + rewrite Ht. reflexivity.
  - intros Hall.
    rewrite (filter_none (fun a => negb (is_NoneType a))); [reflexivity|].
    eapply List.Forall_impl; [|exact Hall]. intros a Ha. cbn. rewrite Ha. reflexivity.
  - destruct (List.filter _ _); discriminate.
  - intros t H.
    destruct (List.filter (fun a => negb (is_NoneType a)) (get_args field)) as [|a l] eqn:F;
      [discriminate|].
    inversion H; subst a.
    destruct (filter_first_inv _ _ _ _ F) as (pre & post & Hargs & Hpre & Ht).
    apply negb_true_iff in Ht. split; [exact Ht|].
    exists pre, post. split; [exact Hargs|].
    eapply List.Forall_impl; [|exact Hpre]. intros a Ha. cbn in Ha.
    apply negb_false_iff in Ha. exact Ha.
Qed.

Lemma X6_witness :
  is_optional (AGeneric "Tuple" [ANoneType; AStr; AInt]) = Ok (Some AStr)
  /\ is_optional (AGeneric "Tuple" [ANoneType; ANoneType]) = Raise (Exn StopIteration "").
Proof.
  split.
  - destruct (X6_is_optional_unwraps (AGeneric "Tuple" [ANoneType; AStr; AInt])) as (H & _).
    + left. reflexivity.
    + right. cbn. lia.
    + apply (H [ANoneType] AStr [AInt]); [reflexivity | repeat constructor | reflexivity].
  - destruct (X6_is_optional_unwraps (AGeneric "Tuple" [ANoneType; ANoneType])) as (_ & H & _).
    + left. reflexivity.
    + right. cbn. lia.
    + apply H. repeat constructor.
Defined.

(** * More on the registry *)

Lemma mapM_fail {A B : Type} (f : A -> result B) (l : list A) (x : A) :
  In x l -> (exists e, f x = Raise e) -> exists e, mapM f l = Raise e.
Proof.
  induction l as [|a l IH]; intros Hin Hx; [destruct Hin|].
  cbn [mapM]. destruct (f a) as [b|e] eqn:E; cbn [bind]; [|eauto].
  destruct Hin as [-> | Hin].
  - destruct Hx as [e He]. congruence.
  - destruct (IH Hin Hx) as [e He]. rewrite He. cbn [bind]. eauto.
Qed.

(** The descriptors of a command, side by side with the parameters. *)
Lemma parse_member_inv m c :
  parse_member m = Ok c ->
  exists initials,
    mapM (fun p => initial (p_name p)) (List.filter not_self (m_params m)) = Ok initials
    /\ mapM (fun p =>
               let* a := parse_param (docstring_lines_of (m_doc m)) (all_distinct initials) p in
               Ok (p_name p, a))
            (List.filter not_self (m_params m)) = Ok (c_args c)
    /\ c_help c = cmd_help_of (docstring_lines_of (m_doc m)).
Proof.
  unfold parse_member. fold not_self.
  change (fun p : parameter => negb (String.eqb (p_name p) "self")) with not_self.
  destruct (mapM _ (List.filter not_self (m_params m))) as [initials|e];
    cbn [bind]; [|discriminate].
  destruct (mapM _ (List.filter not_self (m_params m))) as [args|e] eqn:E;
    cbn [bind]; [|discriminate].
  intros H. inversion H; subst c. cbn [c_args c_help].
  exists initials. repeat split; assumption.
Qed.

Lemma mapM_keys lines di ps : forall args,
  mapM (fun p => let* a := parse_param lines di p in Ok (p_name p, a)) ps = Ok args ->
  map fst args = map p_name ps.
Proof.
  induction ps as [|p ps IH]; intros args H; cbn [mapM] in H.
  - inversion H. reflexivity.
  - destruct (parse_param lines di p) as [a|e]; cbn [bind] in H; [|discriminate].
    destruct (mapM _ ps) as [args'|e]; cbn [bind] in H; [|discriminate].
    inversion H; subst. cbn. f_equal. apply IH. reflexivity.
Qed.

Lemma lookup_fold_insert {V : Type} (f : subcommand_args -> V)
    (l : list (string * subcommand_args)) : forall (m : gmap string V) k,
  is_Some (fold_left (fun d pa => <[fst pa := f (snd pa)]> d) l m !! k)
  <-> In k (map fst l) \/ is_Some (m !! k).
Proof.
  induction l as [|[p a] l IH]; intros m k; cbn [fold_left map In fst snd].
  - tauto.
  - rewrite IH, lookup_insert. destruct (decide (p = k)) as [->|Hne].
    + split; [intros _; left; left; reflexivity | intros _; right; eauto].
    + tauto.
Qed.

(** X7.  The arguments of a command are, in order, the parameters of the
    method other than [self], and these names, no more and no fewer, are
    the keys [commands_map] holds for the command; [self] is never one of
    them. *)
Theorem X7_command_keys_are_the_parameters (m : member) (c : subcommand) :
  parse_member m = Ok c ->
  map fst (c_args c) = map p_name (List.filter not_self (m_params m))
  /\ (forall k, is_Some (coercions_of c !! k)
                <-> In k (map p_name (List.filter not_self (m_params m))))
  /\ coercions_of c !! "self" = None.
Proof.
  intros H. destruct (parse_member_inv m c H) as (initials & _ & Hargs & _).
  pose proof (mapM_keys _ _ _ _ Hargs) as Hk.
  split; [exact Hk|].
  assert (Hdom : forall k, is_Some (coercions_of c !! k)
                           <-> In k (map p_name (List.filter not_self (m_params m)))).
  { intros k. unfold coercions_of. rewrite lookup_fold_insert, Hk, lookup_empty.
    split; [intros [Hin | [v Hv]]; [exact Hin | discriminate] | intros Hin; left; exact Hin]. }
  split; [exact Hdom|].
  destruct (coercions_of c !! "self") eqn:E; [|reflexivity].
  exfalso. assert (Hs : is_Some (coercions_of c !! "self")) by (rewrite E; eauto).
  apply Hdom in Hs. apply in_map_iff in Hs. destruct Hs as (p & Hn & Hp).
  apply filter_In in Hp. destruct Hp as [_ Hp]. unfold not_self in Hp.
  rewrite Hn in Hp. discriminate Hp.
Qed.

Lemma X7_witness :
  map fst (c_args run_detector_command) = ["detector_id"; "raster_id"]
  /\ coercions_of run_detector_command !! "self" = None.
Proof.
  destruct (X7_command_keys_are_the_parameters run_detector run_detector_command)
    as (Hk & _ & Hs); [vm_compute; reflexivity|].
  split; [exact Hk | exact Hs].
Defined.

Lemma parse_param_flags lines di p d :
  parse_param lines di p = Ok d -> make_flags di (p_name p) = Ok (name_or_flags d).
Proof.
  unfold parse_param. intros H.
  destruct (infer (p_name p) (p_annotation p)) as [i|e]; cbn [bind] in H; [|discriminate].
  destruct (help_and_choices _ _ _ _) as [h c1].
  destruct (truthy c1).
  - destruct (join_choices _); cbn [bind] in H; [|discriminate].
    destruct (make_flags di (p_name p)); cbn [bind] in H; [|discriminate].
    inversion H; subst. reflexivity.
  - cbn [bind] in H.
    destruct (make_flags di (p_name p)); cbn [bind] in H; [|discriminate].
    inversion H; subst. reflexivity.
Qed.

(** The option strings of an argument: the long one, and the one-letter
    one when the initials are distinct and the letter is free. *)
Lemma make_flags_inv di param flags :
  make_flags di param = Ok flags ->
  exists c,
    initial param = Ok c
    /\ flags = ("--" ++ api_arg_to_cmd_arg param)
               :: (if di && free_letter c then [short_of c] else []).
Proof.
  unfold make_flags, free_letter, short_of.
  destruct (initial param) as [c|e]; cbn [bind]; [|discriminate].
  intros H. exists c. split; [reflexivity|].
  rewrite andb_assoc.
  destruct (di && negb (Ascii.eqb c "v") && negb (Ascii.eqb c "h"));
    inversion H; reflexivity.
Qed.

Lemma short_flags_of_initials lines di ps : forall initials args,
  mapM (fun p => initial (p_name p)) ps = Ok initials ->
  mapM (fun p => let* a := parse_param lines di p in Ok (p_name p, a)) ps = Ok args ->
  concat (map (fun pa => tl (name_or_flags (snd pa))) args)
  = (if di then map short_of (List.filter free_letter initials) else [])
  /\ Forall (fun pa => hd_error (name_or_flags (snd pa))
                       = Some ("--" ++ api_arg_to_cmd_arg (fst pa))) args.
Proof.
  induction ps as [|p ps IH]; intros initials args Hi Ha; cbn [mapM] in Hi, Ha.
  - inversion Hi; inversion Ha; subst. destruct di; split; constructor.
  - destruct (initial (p_name p)) as [c|e] eqn:Ec; cbn [bind] in Hi; [|discriminate].
    destruct (mapM (fun p => initial (p_name p)) ps) as [initials'|e];
      cbn [bind] in Hi; [|discriminate].
    destruct (parse_param lines di p) as [a|e] eqn:Ep; cbn [bind] in Ha; [|discriminate].
    destruct (mapM (fun p => let* a := parse_param lines di p in Ok (p_name p, a)) ps)
      as [args'|e]; cbn [bind] in Ha; [|discriminate].
    inversion Hi; inversion Ha; subst.
    destruct (IH _ _ eq_refl eq_refl) as [Hc Hf].
    apply parse_param_flags, make_flags_inv in Ep. destruct Ep as (c' & Hc' & Hflags).
    rewrite Ec in Hc'. inversion Hc'; subst c'.
    split.
    + cbn [map concat snd List.filter]. rewrite Hflags, Hc. cbn [tl].
      destruct di; cbn [andb]; [|reflexivity].
      destruct (free_letter c); reflexivity.
    + constructor; [|exact Hf]. cbn [fst snd]. rewrite Hflags. reflexivity.
Qed.

Lemma all_distinct_NoDup l : all_distinct l = true -> List.NoDup l.
Proof.
  induction l as [|c l IH]; intros H; [constructor|].
  cbn in H. apply andb_true_iff in H. destruct H as [Hc Hl].
  constructor; [|exact (IH Hl)].
  intros Hin. apply negb_true_iff in Hc.
  assert (existsb (Ascii.eqb c) l = true).
  { apply existsb_exists. exists c. split; [exact Hin | apply Ascii.eqb_refl]. }
  congruence.
Qed.

(** X8.  In every command the first option string of an argument is the
    parameter name with hyphens after two dashes.  The one-letter option
    strings of the command are pairwise distinct, and none of them is the
    [-v] of the verbosity or the [-h] of the help. *)
Theorem X8_short_flags_never_clash (m : member) (c : subcommand) :
  parse_member m = Ok c ->
  List.NoDup (short_flags c)
  /\ ~ In "-v" (short_flags c)
  /\ ~ In "-h" (short_flags c)
  /\ Forall (fun pa => hd_error (name_or_flags (snd pa))
                       = Some ("--" ++ api_arg_to_cmd_arg (fst pa))) (c_args c).
Proof.
  intros H. destruct (parse_member_inv m c H) as (initials & Hi & Ha & _).
  destruct (short_flags_of_initials _ _ _ _ _ Hi Ha) as [Hs Hf].
  unfold short_flags. rewrite Hs.
  split; [|split; [|split; [|exact Hf]]].
  - destruct (all_distinct initials) eqn:E; [|constructor].
    apply NoDup_map_NoDup_ForallPairs.
    + intros x y _ _ Hxy. inversion Hxy. reflexivity.
    + apply List.NoDup_filter. apply all_distinct_NoDup. exact E.
  - destruct (all_distinct initials); [|intros []].
    intros Hin. apply in_map_iff in Hin. destruct Hin as (x & Hx & Hin).
    apply filter_In in Hin. destruct Hin as [_ Hfree].
    inversion Hx; subst x. discriminate Hfree.
  - destruct (all_distinct initials); [|intros []].
    intros Hin. apply in_map_iff in Hin. destruct Hin as (x & Hx & Hin).
    apply filter_In in Hin. destruct Hin as [_ Hfree].
    inversion Hx; subst x. discriminate Hfree.
Qed.

Lemma X8_witness :
  short_flags run_detector_command = ["-d"; "-r"]
  /\ List.NoDup (short_flags run_detector_command).
Proof.
  split; [reflexivity|].
  apply (X8_short_flags_never_clash run_detector run_detector_command).
  vm_compute. reflexivity.
Defined.

(** A parameter typed by literals that are not all strings cannot be
    described: the message of line 211 joins the choices. *)
Lemma parse_param_literal_crash lines di p v vals :
  p_annotation p = ALiteral (v :: vals) ->
  forallb isinstance_str (v :: vals) = false ->
  parse_param lines di p = Raise (Exn TypeError "sequence item: expected str instance").
Proof.
  intros Ha Hs. unfold parse_param.
  rewrite Ha, infer_literal. cbn [bind i_type i_choices].
  rewrite help_and_choices_truthy by reflexivity.
  cbn [truthy]. unfold join_choices. rewrite Hs. reflexivity.
Qed.

Lemma parse_member_fails m p :
  In p (m_params m) -> not_self p = true ->
  (forall lines di, exists e, parse_param lines di p = Raise e) ->
  exists e, parse_member m = Raise e.
Proof.
  intros Hin Hns Hp. unfold parse_member.
  change (fun p : parameter => negb (String.eqb (p_name p) "self")) with not_self.
  destruct (mapM _ (List.filter not_self (m_params m))) as [initials|e];
    cbn [bind]; [|eauto].
  destruct (mapM_fail
              (fun p => let* a := parse_param (docstring_lines_of (m_doc m))
                                    (all_distinct initials) p in Ok (p_name p, a))
              (List.filter not_self (m_params m)) p) as [e He].
  - apply filter_In. split; assumption.
  - destruct (Hp (docstring_lines_of (m_doc m)) (all_distinct initials)) as [e He].
    exists e. rewrite He. reflexivity.
  - rewrite He. cbn [bind]. eauto.
Qed.

Lemma build_fails members m :
  In m members -> is_public (m_name m) = true ->
  (exists e, parse_member m = Raise e) ->
  forall r0, exists e, build members r0 = Raise e.
Proof.
  intros Hin Hpub Hm r0.
  destruct (build members r0) as [r|e] eqn:E; [|eauto].
  exfalso. apply build_inv in E. destruct E as (cs & Hcs & _).
  destruct (mapM_fail parse_member (public_members members) m) as [e He].
  - apply filter_In. split; assumption.
  - exact Hm.
  - congruence.
Qed.

(** X9.  One parameter of one public method typed by a [Literal] with a
    value that is not a string is enough to make the building of the
    commands raise, the [join] of line 211 being given a non-string: the
    program then ends in an uncaught exception on every command line,
    before anything is parsed or dispatched. *)
Theorem X9_non_string_literal_breaks_every_command
    (w : world) (members : list member) (argv : cmdline)
    (m : member) (p : parameter) (v : value) (vals : list value) :
  In m members ->
  is_public (m_name m) = true ->
  In p (m_params m) ->
  not_self p = true ->
  p_annotation p = ALiteral (v :: vals) ->
  forallb isinstance_str (v :: vals) = false ->
  (forall lines di, exists e, parse_param lines di p = Raise e /\ exn_cls e = TypeError)
  /\ exists e, main w members argv = ([], Uncaught e).
Proof.
  intros Hm Hpub Hp Hns Ha Hs.
  split.
  { intros lines di. eexists. split;
      [exact (parse_param_literal_crash lines di p v vals Ha Hs) | reflexivity]. }
  destruct (build_fails members m Hm Hpub) with (r0 := {| subparsers := []; commands_map := ∅ |})
    as [e He].
  - apply (parse_member_fails m p Hp Hns). intros lines di.
    rewrite (parse_param_literal_crash lines di p v vals Ha Hs). eauto.
  - exists e. unfold main, parse_args, build_registry, fresh_process.
    cbn [p_commands_map]. rewrite He. reflexivity.
Qed.

Lemma X9_witness :
  exists e,
    main quiet_world (resize :: sample_members) (Cmdline (Some "list-rasters") [])
    = ([], Uncaught e).
Proof.
  apply (X9_non_string_literal_breaks_every_command quiet_world (resize :: sample_members)
           (Cmdline (Some "list-rasters") []) resize tile_size_param
           (VInt 256) [VInt 512]).
  - left. reflexivity.
  - reflexivity.
  - right. left. reflexivity.
  - reflexivity.
  - reflexivity.
  - reflexivity.
Defined.

Lemma mapM_Forall_help lines di ps : forall args,
  lines = [] ->
  mapM (fun p => let* a := parse_param lines di p in Ok (p_name p, a)) ps = Ok args ->
  Forall (fun pa => help (snd pa) = None) args.
Proof.
  induction ps as [|p ps IH]; intros args Hl H; cbn [mapM] in H.
  - inversion H. constructor.
  - destruct (parse_param lines di p) as [a|e] eqn:E; cbn [bind] in H; [|discriminate].
    destruct (mapM _ ps) as [args'|e]; cbn [bind] in H; [|discriminate].
    inversion H; subst args. constructor; [|apply IH; [exact Hl | reflexivity]].
    cbn [snd]. apply parse_param_inv in E.
    destruct E as (i & _ & _ & _ & _ & _ & Hh & _). rewrite Hh. subst lines. reflexivity.
Qed.

(** X10.  A method without a docstring, or with an empty one, still gets
    its command; the command has no help text, and none of its arguments
    has one. *)
Theorem X10_no_docstring_no_help (m : member) (c : subcommand) :
  m_doc m = None \/ m_doc m = Some EmptyString ->
  parse_member m = Ok c ->
  c_name c = api_arg_to_cmd_arg (m_name m)
  /\ c_help c = None
  /\ Forall (fun pa => help (snd pa) = None) (c_args c).
Proof.
  intros Hdoc H.
  assert (Hl : docstring_lines_of (m_doc m) = []).
  { destruct Hdoc as [-> | ->]; reflexivity. }
  destruct (parse_member_inv m c H) as (initials & _ & Ha & Hh).
  split; [exact (parse_member_name m c H)|].
  split; [rewrite Hh, Hl; reflexivity|].
  exact (mapM_Forall_help _ _ _ _ Hl Ha).
Qed.

Lemma X10_witness :
  exists c, parse_member delete_raster = Ok c
            /\ c_name c = "delete-raster" /\ c_help c = None.
Proof.
  exists (get_Ok run_detector_command (parse_member delete_raster)).
  assert (H : parse_member delete_raster
              = Ok (get_Ok run_detector_command (parse_member delete_raster))).
  { apply is_Ok_get. vm_compute. reflexivity. }
  split; [exact H|].
  destruct (X10_no_docstring_no_help delete_raster _ (or_introl eq_refl) H)
    as (Hn & Hh & _).
  split; [exact Hn | exact Hh].
Defined.

(** * More on parsing *)

(** X11.  Without a command the program prints the help and returns, with
    exit status 0: the dispatcher does not run, so the API key is not
    looked at and the client is not touched, whatever the environment.
    The module-level [commands_map] has been filled all the same. *)
Theorem X11_no_command_prints_help (w : world) (members : list member) (r : registry) :
  build_registry members ∅ = Ok r ->
  main w members (Cmdline None []) = ([EvPrintHelp], Returned)
  /\ exit_status (snd (main w members (Cmdline None []))) = Some 0
  /\ p_commands_map (state_of (parse_args w members fresh_process (Cmdline None [])))
     = commands_map r.
Proof.
  intros Hb. unfold main, parse_args, fresh_process. cbn [p_commands_map p_log].
  rewrite Hb. cbn. repeat split; reflexivity.
Qed.

Lemma X11_witness :
  main keyless_world sample_members (Cmdline None []) = ([EvPrintHelp], Returned).
Proof.
  destruct (X11_no_command_prints_help keyless_world sample_members sample_registry)
    as (Hm & _).
  - vm_compute. reflexivity.
  - exact Hm.
Defined.

Section Required.

Variable w : world.
Variable args : list (string * subcommand_args).





End Required.



Section Defaults.

Variable w : world.








End Defaults.



(** * More on the identifier converter *)

Lemma replace_from_deleting_length old s : forall skip,
  (String.length (PyStr.replace_from old EmptyString skip s) <= String.length s)%nat.
Proof.
  induction s as [|c s IH]; intros skip; [cbn; lia|].
  cbn [PyStr.replace_from]. destruct skip as [|k].
  - destruct (PyStr.startswith old (String c s)).
    + change (EmptyString ++ ?x) with x. cbn [String.length].
      specialize (IH (Nat.pred (String.length old))).
      etransitivity; [exact IH | lia].
    + cbn [String.length]. specialize (IH O). lia.
  - cbn [String.length]. specialize (IH k). lia.
Qed.

Lemma lstrip_by_length f l : (length (PyStr.lstrip_by f l) <= length l)%nat.
Proof.
  induction l as [|c l IH]; [cbn; lia|].
  cbn [PyStr.lstrip_by]. destruct (f c); cbn [length]; lia.
Qed.

Lemma length_chars s : length (PyStr.chars s) = String.length s.
Proof.
  unfold PyStr.chars. induction s as [|c s IH]; cbn; [reflexivity | f_equal; exact IH].
Qed.

Lemma strip_by_length f s : (String.length (PyStr.strip_by f s) <= String.length s)%nat.
Proof.
  unfold PyStr.strip_by. rewrite length_of_chars, List.length_rev.
  etransitivity; [apply lstrip_by_length|].
  rewrite List.length_rev.
  etransitivity; [apply lstrip_by_length|].
  rewrite length_chars. lia.
Qed.

(** The cleaning steps of [UUID] never make the text longer. *)
Lemma cleaned_length s :
  (String.length
     (PyStr.replace "-" ""
        (PyStr.strip_chars "{}" (PyStr.replace "uuid:" "" (PyStr.replace "urn:" "" s))))
   <= String.length s)%nat.
Proof.
  unfold PyStr.replace, PyStr.strip_chars.
  etransitivity; [apply replace_from_deleting_length|].
  etransitivity; [apply strip_by_length|].
  etransitivity; [apply replace_from_deleting_length|].
  apply replace_from_deleting_length.
Qed.

(** X14.  [uuid_type] has two ways to end and no other: it gives its
    input back, or it raises [ArgumentTypeError] with the message
    "invalid UUID value: '...'" quoting the input.  A text of fewer than
    32 characters, the empty one included, always ends the second way. *)
Theorem X14_short_text_is_rejected (short s : string) :
  (String.length short < 32)%nat ->
  uuid_type short
  = Raise (Exn ArgumentTypeError ("invalid UUID value: '" ++ short ++ "'"))
  /\ (uuid_type s = Ok s
      \/ uuid_type s = Raise (Exn ArgumentTypeError ("invalid UUID value: '" ++ s ++ "'"))).
Proof.
  intros Hlen. split.
  - apply (uuid_type_rejects short (Exn ValueError "badly formed hexadecimal UUID string")).
    unfold Uuid.UUID.
    pose proof (cleaned_length short) as Hc.
    destruct (Nat.eqb _ 32) eqn:E; [|reflexivity].
    apply Nat.eqb_eq in E. lia.
  - destruct (Uuid.UUID s (Some 4)) as [v|e] eqn:E.
    + left. exact (uuid_type_of_UUID s v E).
    + right. exact (uuid_type_rejects s e E).
Qed.

Lemma X14_witness :
  uuid_type "" = Raise (Exn ArgumentTypeError "invalid UUID value: ''").
Proof.
  apply (X14_short_text_is_rejected "" ""). cbn. lia.
Defined.

(** * More on the docstring *)

Lemma lstrip_by_Forall (P : ascii -> Prop) f l :
  Forall P l -> Forall P (PyStr.lstrip_by f l).
Proof.
  induction l as [|c l IH]; intros H; [constructor|].
  cbn [PyStr.lstrip_by]. destruct (f c); [|exact H].
  inversion H; subst. apply IH. assumption.
Qed.

Lemma strip_by_Forall (P : ascii -> Prop) f s :
  Forall P (PyStr.chars s) -> Forall P (PyStr.chars (PyStr.strip_by f s)).
Proof.
  intros H. unfold PyStr.strip_by. rewrite chars_of_chars.
  apply List.Forall_rev, lstrip_by_Forall, List.Forall_rev, lstrip_by_Forall. exact H.
Qed.

(** No field of a split holds the separator. *)
Lemma split_from_fields sep s : forall cur,
  Forall (fun x => Ascii.eqb x sep = false) cur ->
  Forall (free_of sep) (PyStr.split_from sep cur s).
Proof.
  induction s as [|c s IH]; intros cur Hcur; cbn [PyStr.split_from].
  - constructor; [|constructor]. unfold free_of. rewrite chars_of_chars.
    apply List.Forall_rev. exact Hcur.
  - destruct (Ascii.eqb c sep) eqn:E.
    + constructor; [|apply IH; constructor].
      unfold free_of. rewrite chars_of_chars. apply List.Forall_rev. exact Hcur.
    + apply IH. constructor; assumption.
Qed.

Lemma help_and_choices_inv lines param ty c0 h :
  fst (help_and_choices lines param ty c0) = Some h ->
  exists line x field rest,
    find (PyStr.startswith param) lines = Some line
    /\ PyStr.split ":" line = x :: field :: rest
    /\ h = PyStr.strip field ++ type_suffix ty.
Proof.
  unfold help_and_choices.
  destruct (find (PyStr.startswith param) lines) as [line|] eqn:F; [|discriminate].
  destruct (PyStr.split ":" line) as [|x [|field rest]] eqn:E; try discriminate.
  destruct (negb (truthy c0)); [|discriminate].
  destruct (OneOf.re_match _); cbn [fst]; intros H; inversion H;
    exists line, x, field, rest; (split; [reflexivity|split; [exact E|reflexivity]]).
Qed.

(** X15.  A help text, when one is recorded, is made of the second field
    of the first docstring line that starts with the parameter name, cut
    at the colons and stripped, so that it holds no colon: what follows a
    second colon on the line is lost.  The name of the converter in
    brackets is appended to it whenever the argument has a converter, the
    pattern of choices matching or not. *)
Theorem X15_help_is_one_field_and_the_suffix
    (lines : list string) (di : bool) (p : parameter) (d : subcommand_args) (h : string) :
  parse_param lines di p = Ok d ->
  help d = Some h ->
  exists line x field rest,
    find (PyStr.startswith (p_name p)) lines = Some line
    /\ PyStr.split ":" line = x :: field :: rest
    /\ h = PyStr.strip field ++ type_suffix (type_ d)
    /\ free_of ":" (PyStr.strip field).
Proof.
  intros H Hh. apply parse_param_inv in H.
  destruct H as (i & _ & _ & _ & _ & Ht & Hhelp & _).
  rewrite Hh in Hhelp. symmetry in Hhelp.
  destruct (help_and_choices_inv _ _ _ _ _ Hhelp) as (line & x & field & rest & Hf & Hs & He).
  exists line, x, field, rest. rewrite Ht.
  repeat (split; [assumption|]).
  unfold free_of, PyStr.strip. apply strip_by_Forall.
  pose proof (split_from_fields ":" line [] (List.Forall_nil _)) as Hfields.
  unfold PyStr.split in Hs. rewrite Hs in Hfields.
  inversion Hfields as [|? ? _ Hrest]; subst.
  inversion Hrest; subst. assumption.
Qed.

Lemma X15_witness :
  exists d field,
    parse_param ["name: Name of the detector, e.g.: spam"] true
      (MkParameter "name" AStr None) = Ok d
    /\ help d = Some (PyStr.strip field ++ " [str]")
    /\ free_of ":" (PyStr.strip field).
Proof.
  destruct (X15_help_is_one_field_and_the_suffix
              ["name: Name of the detector, e.g.: spam"] true
              (MkParameter "name" AStr None)
              {| required := true; default := None; action := None;
                 type_ := Some (TyObject AStr);
                 help := Some "Name of the detector, e.g. [str]";
                 choices := None; name_or_flags := ["--name"; "-n"] |}
              "Name of the detector, e.g. [str]"
              eq_refl eq_refl) as (line & x & field & rest & _ & _ & He & Hfree).
  eexists _, field. split; [reflexivity|]. split; [|exact Hfree].
  cbn [help]. f_equal. exact He.
Defined.

Lemma startswith_extend sub : forall s t,
  PyStr.startswith sub s = true -> PyStr.startswith sub (s ++ t) = true.
Proof.
  induction sub as [|a sub IH]; intros s t H; [reflexivity|].
  destruct s as [|b s]; [discriminate|].
  change (String b s ++ t) with (String b (s ++ t)).
  cbn [PyStr.startswith] in *. apply andb_true_iff in H. destruct H as [Hab Hs].
  rewrite Hab, (IH _ _ Hs). reflexivity.
Qed.

Lemma contains_extend sub s t :
  PyStr.contains sub s = true -> PyStr.contains sub (s ++ t) = true.
Proof.
  induction s as [|c s IH]; intros H.
  - cbn in H. rewrite orb_false_r in H. destruct sub; [|discriminate].
    destruct t; reflexivity.
  - change (String c s ++ t) with (String c (s ++ t)).
    cbn [PyStr.contains] in *. apply orb_true_iff in H. destruct H as [H | H].
    + change (String c (s ++ t)) with (String c s ++ t).
      rewrite (startswith_extend _ _ _ H). reflexivity.
    + rewrite (IH H). apply orb_true_r.
Qed.

Lemma contains_suffix sub s t :
  PyStr.contains sub t = true -> PyStr.contains sub (s ++ t) = true.
Proof.
  intros H. induction s as [|c s IH]; [exact H|].
  change (String c s ++ t) with (String c (s ++ t)). apply contains_skip. exact IH.
Qed.

Lemma of_chars_app l1 l2 :
  PyStr.of_chars (l1 ++ l2) = PyStr.of_chars l1 ++ PyStr.of_chars l2.
Proof.
  unfold PyStr.of_chars. induction l1 as [|c l1 IH]; [reflexivity|].
  cbn [app string_of_list_ascii].
  change (String c (string_of_list_ascii l1) ++ string_of_list_ascii l2)
    with (String c (string_of_list_ascii l1 ++ string_of_list_ascii l2)).
  rewrite IH. reflexivity.
Qed.

Lemma lstrip_by_suffix f l : exists pre, l = (pre ++ PyStr.lstrip_by f l)%list.
Proof.
  induction l as [|c l [pre IH]]; [exists []; reflexivity|].
  cbn [PyStr.lstrip_by]. destruct (f c).
  - exists (c :: pre). cbn. f_equal. exact IH.
  - exists []. reflexivity.
Qed.

(** A stripped text is a piece of the text. *)
Lemma strip_by_infix f s :
  exists pre post, s = pre ++ PyStr.strip_by f s ++ post.
Proof.
  unfold PyStr.strip_by.
  destruct (lstrip_by_suffix f (PyStr.chars s)) as [pre Hpre].
  destruct (lstrip_by_suffix f (rev (PyStr.lstrip_by f (PyStr.chars s)))) as [pre2 Hpre2].
  exists (PyStr.of_chars pre), (PyStr.of_chars (rev pre2)).
  rewrite <- !of_chars_app.
  rewrite <- (of_chars_chars s) at 1. f_equal.
  rewrite Hpre at 1. f_equal.
  rewrite <- rev_app_distr, <- Hpre2. symmetry. apply rev_involutive.
Qed.

Lemma contains_strip sub f s :
  PyStr.contains sub (PyStr.strip_by f s) = true -> PyStr.contains sub s = true.
Proof.
  intros H. destruct (strip_by_infix f s) as (pre & post & Hs).
  rewrite Hs. apply contains_suffix, contains_extend. exact H.
Qed.

(** X16.  The help text of a command, when there is one, mentions neither
    "beta" nor "experimental". *)
Theorem X16_command_help_skips_beta_lines (m : member) (c : subcommand) (h : string) :
  parse_member m = Ok c ->
  c_help c = Some h ->
  PyStr.contains "beta" h = false /\ PyStr.contains "experimental" h = false.
Proof.
  intros H Hh. destruct (parse_member_inv m c H) as (initials & _ & _ & Hhelp).
  rewrite Hh in Hhelp. unfold cmd_help_of in Hhelp.
  destruct (find _ (docstring_lines_of (m_doc m))) as [d|] eqn:E; [|discriminate].
  cbn [option_map] in Hhelp. inversion Hhelp; subst h.
  apply find_some in E. destruct E as [_ E].
  apply andb_true_iff in E. destruct E as [Eb Ee].
  apply negb_true_iff in Eb, Ee.
  split.
  - destruct (PyStr.contains "beta" (PyStr.strip d)) eqn:C; [|reflexivity].
    unfold PyStr.strip in C. apply contains_strip in C. congruence.
  - destruct (PyStr.contains "experimental" (PyStr.strip d)) eqn:C; [|reflexivity].
    unfold PyStr.strip in C. apply contains_strip in C. congruence.
Qed.

Lemma X16_witness :
  exists c, parse_member edit_raster = Ok c
            /\ c_help c = Some "Edits a raster"
            /\ PyStr.contains "beta" "Edits a raster" = false.
Proof.
  exists (get_Ok run_detector_command (parse_member edit_raster)).
  split; [apply is_Ok_get; vm_compute; reflexivity|].
  split; [vm_compute; reflexivity|].
  refine (proj1 (X16_command_help_skips_beta_lines edit_raster
                   (get_Ok run_detector_command (parse_member edit_raster))
                   "Edits a raster" _ _)).
  - apply is_Ok_get. vm_compute. reflexivity.
  - vm_compute. reflexivity.
Defined.

(** * More on the pattern of choices *)

Lemma search_inv l : forall g,
  OneOf.search l = Some g -> exists pre l', l = (pre ++ l')%list /\ OneOf.tail_at l' = Some g.
Proof.
  induction l as [|c l IH]; intros g H; cbn [OneOf.search] in H.
  - exists [], []. split; [reflexivity | exact H].
  - destruct (Ascii.eqb c "010").
    + exists [], (c :: l). split; [reflexivity | exact H].
    + destruct (OneOf.search l) as [g'|] eqn:E.
      * inversion H; subst g'. destruct (IH g eq_refl) as (pre & l' & Hl & Ht).
        exists (c :: pre), l'. split; [cbn; f_equal; exact Hl | exact Ht].
      * exists [], (c :: l). split; [reflexivity | exact H].
Qed.

Lemma literal_ci_inv lit : forall l l1,
  OneOf.literal_ci lit l = Some l1 ->
  exists m, l = (m ++ l1)%list /\ map PyStr.lower m = lit.
Proof.
  induction lit as [|a lit IH]; intros l l1 H; cbn [OneOf.literal_ci] in H.
  - inversion H; subst. exists []. split; reflexivity.
  - destruct l as [|c l]; [discriminate|].
    destruct (Ascii.eqb (PyStr.lower c) a) eqn:E; [|discriminate].
    apply Ascii.eqb_eq in E. destruct (IH _ _ H) as (m & Hl & Hm).
    exists (c :: m). split; [cbn; f_equal; exact Hl | cbn; f_equal; assumption].
Qed.

(** Deleting a character filters it out. *)
Lemma replace_char_delete a s :
  PyStr.chars (PyStr.replace (String a EmptyString) "" s)
  = List.filter (fun c => negb (Ascii.eqb a c)) (PyStr.chars s).
Proof.
  unfold PyStr.replace.
  induction s as [|c s IH]; [reflexivity|].
  cbn [PyStr.replace_from PyStr.startswith String.length Nat.pred].
  rewrite andb_true_r.
  change (PyStr.chars (String c s)) with (c :: PyStr.chars s).
  cbn [List.filter].
  destruct (Ascii.eqb a c); cbn [negb].
  - change (EmptyString ++ ?x) with x. exact IH.
  - change (PyStr.chars (String c ?x)) with (c :: PyStr.chars x). f_equal. exact IH.
Qed.

(** The fields of a split keep what holds of every character. *)
Lemma split_from_Forall (P : ascii -> Prop) sep s : forall cur,
  Forall P cur -> Forall P (PyStr.chars s) ->
  Forall (fun f => Forall P (PyStr.chars f)) (PyStr.split_from sep cur s).
Proof.
  induction s as [|c s IH]; intros cur Hcur Hs; cbn [PyStr.split_from].
  - constructor; [|constructor]. rewrite chars_of_chars. apply List.Forall_rev. exact Hcur.
  - change (PyStr.chars (String c s)) with (c :: PyStr.chars s) in Hs.
    inversion Hs; subst.
    destruct (Ascii.eqb c sep).
    + constructor; [|apply IH; [constructor | assumption]].
      rewrite chars_of_chars. apply List.Forall_rev. exact Hcur.
    + apply IH; [constructor; assumption | assumption].
Qed.

(** X17.  The pattern finds choices in a help text only if the text holds
    the words "one of " in some mix of cases, and the group it finds is
    not empty.  The choices made of the group are strings that hold
    neither a comma nor a single quote. *)
Theorem X17_choices_need_one_of (h g : string) :
  OneOf.re_match h = Some g ->
  PyStr.contains "one of " (lower_text h) = true
  /\ g <> EmptyString
  /\ Forall (fun v => exists s, v = VStr s /\ free_of "," s /\ free_of "'" s)
            (choices_of_group g).
Proof.
  intros H. unfold OneOf.re_match in H.
  destruct (OneOf.search (PyStr.chars h)) as [gl|] eqn:E; [|discriminate].
  cbn [option_map] in H. inversion H; subst g.
  apply search_inv in E. destruct E as (pre & l' & Hl & Ht).
  unfold OneOf.tail_at in Ht.
  destruct (OneOf.literal_ci (PyStr.chars "one of ") l') as [l1|] eqn:El; [|discriminate].
  destruct (OneOf.opt OneOf.is_lparen l1) as [x l2].
  destruct (OneOf.opt PyStr.is_space l2) as [y l3].
  destruct (OneOf.tokens (length l3) l3) as [|t ts] eqn:Et; [discriminate|].
  inversion Ht; subst gl.
  apply literal_ci_inv in El. destruct El as (m & Hm & Hlow).
  split; [|split].
  - unfold lower_text. rewrite Hl, Hm, !map_app, Hlow, !of_chars_app.
    apply contains_suffix. apply contains_prefix.
  - discriminate.
  - unfold choices_of_group. apply List.Forall_map.
    set (clean := PyStr.replace "'" "" (PyStr.of_chars (t :: ts))).
    assert (Hq : Forall (fun c => Ascii.eqb c "'" = false) (PyStr.chars clean)).
    { unfold clean. rewrite replace_char_delete. apply List.Forall_forall.
      intros c Hc. apply filter_In in Hc. destruct Hc as [_ Hc].
      apply negb_true_iff in Hc. rewrite Ascii.eqb_sym. exact Hc. }
    pose proof (split_from_fields "," clean [] (List.Forall_nil _)) as Hcomma.
    pose proof (split_from_Forall _ "," clean [] (List.Forall_nil _) Hq) as Hquote.
    unfold PyStr.split.
    induction (PyStr.split_from "," [] clean) as [|f fs IH]; [constructor|].
    inversion Hcomma; inversion Hquote; subst.
    constructor; [|apply IH; assumption].
    exists (PyStr.strip f). split; [reflexivity|].
    split; unfold free_of, PyStr.strip; apply strip_by_Forall; assumption.
Qed.

Lemma X17_witness :
  PyStr.contains "one of " (lower_text "Type of detector (ONE OF 'count', 'segmentation')")
  = true
  /\ choices_of_group "'count', 'segmentation'" = [VStr "count"; VStr "segmentation"].
Proof.
  split; [|reflexivity].
  apply (X17_choices_need_one_of "Type of detector (ONE OF 'count', 'segmentation')"
           "'count', 'segmentation'").
  reflexivity.
Defined.

(** * More on the command names *)

Lemma public_name_keeps_its_start fn :
  PyStr.contains "-" fn = false ->
  PyStr.startswith "_" fn = false ->
  PyStr.startswith "-" (api_arg_to_cmd_arg fn) = false.
Proof.
  intros Hh Hp. destruct fn as [|c fn]; [reflexivity|].
  unfold api_arg_to_cmd_arg, PyStr.replace. rewrite replace_char_cons.
  cbn [PyStr.startswith PyStr.contains] in *.
  rewrite andb_true_r in Hp. rewrite Hp. rewrite andb_true_r.
  apply orb_false_iff in Hh. destruct Hh as [Hh _].
  rewrite andb_true_r in Hh. exact Hh.
Qed.

(** X18.  The method names having no hyphen, no command name of the
    registry starts with a hyphen, so none can be taken for an option;
    and a method whose name starts with an underscore never becomes a
    command. *)
Theorem X18_private_methods_are_no_commands
    (members : list member) (cm : commands_map_t) (r : registry) :
  build_registry members cm = Ok r ->
  Forall (fun m => PyStr.contains "-" (m_name m) = false) members ->
  Forall (fun c => PyStr.startswith "-" (c_name c) = false) (subparsers r)
  /\ forall m, In m members -> is_public (m_name m) = false ->
               ~ In (api_arg_to_cmd_arg (m_name m)) (map c_name (subparsers r)).
Proof.
  intros Hb Hhy. unfold build_registry in Hb.
  apply build_inv in Hb. destruct Hb as (cs & Hcs & Hs & _).
  cbn [subparsers app] in Hs. rewrite Hs.
  rewrite List.Forall_forall in Hhy.
  split.
  - apply List.Forall_forall. intros c Hc.
    destruct (mapM_In _ _ _ Hcs c Hc) as (m & Hm & Hpm).
    apply filter_In in Hm. destruct Hm as [Hm Hpub].
    rewrite (parse_member_name m c Hpm).
    apply public_name_keeps_its_start; [exact (Hhy m Hm)|].
    unfold is_public in Hpub. apply negb_true_iff in Hpub. exact Hpub.
  - intros m Hm Hpriv Hin.
    rewrite (mapM_names _ _ Hcs) in Hin.
    apply in_map_iff in Hin. destruct Hin as (m' & Heq & Hm').
    apply filter_In in Hm'. destruct Hm' as [Hm' Hpub].
    assert (Hn : m_name m' = m_name m).
    { rewrite <- (cmd_arg_roundtrip (m_name m')), <- (cmd_arg_roundtrip (m_name m))
        by (apply Hhy; assumption).
      rewrite Heq. reflexivity. }
    rewrite Hn in Hpub. congruence.
Qed.

Lemma X18_witness :
  ~ In "-wait-until-operation-completes" (map c_name (subparsers sample_registry)).
Proof.
  destruct (X18_private_methods_are_no_commands sample_members ∅ sample_registry)
    as (_ & Hpriv).
  - vm_compute. reflexivity.
  - repeat constructor.
  - exact (Hpriv _wait_until_operation_completes ltac:(left; reflexivity) eq_refl).
Defined.

(** * More on the levels *)

(** X19.  The level a dispatch sets stays with the process: after a
    dispatch with three or more [-v], a later dispatch in the same process
    with no [-v] at all leaves the level at [DEBUG] and starts by writing
    its two debug records. *)
Theorem X19_level_outlives_the_dispatch
    (w1 w2 : world) (cm1 cm2 : commands_map_t) (st : log_state) (o1 o2 : options) :
  3 <= verbose o1 ->
  verbose o2 = 0 ->
  state_of (_handle_command w2 cm2 (state_of (_handle_command w1 cm1 st o1)) o2)
  = setLevel DEBUG st
  /\ exists rest,
       trace_of (_handle_command w2 cm2 (state_of (_handle_command w1 cm1 st o1)) o2)
       = EvLog DEBUG MsgLoggingLevel :: EvLog DEBUG MsgHandlingCommand :: rest.
Proof.
  intros H1 H2.
  destruct (handle_command_split w1 cm1 st o1) as (rest1 & _ & Hs1 & _).
  rewrite apply_verbosity_table in Hs1.
  assert (Hl : level_for_count (verbose o1) = Some DEBUG).
  { unfold level_for_count. destruct (3 <=? verbose o1) eqn:E; [reflexivity|].
    apply Z.leb_gt in E. lia. }
  rewrite Hl in Hs1. cbn [fst] in Hs1. rewrite Hs1.
  unfold _handle_command. rewrite H2. cbn [apply_verbosity Z.eqb].
  assert (Hlog : forall msg, log (setLevel DEBUG st) DEBUG msg = [EvLog DEBUG msg]).
  { intros msg. reflexivity. }
  rewrite !Hlog.
  destruct (negb (api_key_set w2));
    [|destruct (command o2) as [name|];
      [destruct (cm2 !! name) as [params|];
       [destruct (client_init w2);
        [|destruct (guarded_call w2 (setLevel DEBUG st) o2 name
                      (_cmd_arg_to_api_arg name) params) as [t4 r];
          destruct r as [[]|err];
          [|destruct (is_api_or_value_error err); [|destruct (is_Exception err)]]]|]|]].
  all: unfold state_of, trace_of; cbn [fst snd app];
    (split; [reflexivity | eexists; reflexivity]).
Qed.

Lemma X19_witness :
  exists rest,
    trace_of (_handle_command quiet_world (commands_map sample_registry)
                (state_of (_handle_command keyless_world ∅ initial_log_state loud_options))
                list_rasters_options)
    = EvLog DEBUG MsgLoggingLevel :: EvLog DEBUG MsgHandlingCommand :: rest.
Proof.
  apply (X19_level_outlives_the_dispatch keyless_world quiet_world ∅
           (commands_map sample_registry) initial_log_state loud_options
           list_rasters_options).
  - cbn. lia.
  - reflexivity.
Defined.

(** * More on choices *)

Lemma infer_action_excludes_type param ty i :
  infer param ty = Ok i -> i_type i <> None -> i_action i = None.
Proof.
  unfold infer.
  destruct (is_AEmpty ty); [intros H; inversion H; subst; cbn; congruence|].
  destruct (is_ABool ty || eq_Optional_bool ty);
    [intros H; inversion H; subst; cbn; congruence|].
  destruct (is_AStr ty && PyStr.endswith "_id" param);
    [intros H; inversion H; reflexivity|].
  destruct (in_int_float_str ty); [intros H; inversion H; reflexivity|].
  destruct (is_optional ty) as [[t|]|e]; cbn [bind]; [| |discriminate].
  - intros H; inversion H; reflexivity.
  - destruct ty; intros H; inversion H; reflexivity.
Qed.

Lemma py_eq_number_string l :
  Forall (fun v => isinstance_str v = true) l ->
  forall z f, existsb (py_eq (VInt z)) l = false /\ existsb (py_eq (VFloat f)) l = false.
Proof.
  induction 1 as [|v l Hv _ IH]; intros z f; [split; reflexivity|].
  destruct v; try discriminate.
  destruct (IH z f) as [Hi Hf].
  split; cbn [existsb]; [rewrite Hi | rewrite Hf]; reflexivity.
Qed.

(** X20.  When the choices of an argument converted to [int] or [float]
    were found in its help text, they are strings and the converted value
    is a number, so no value is among them: every occurrence of the option
    on a command line is a usage error. *)
Theorem X20_numeric_argument_with_help_choices_takes_no_value
    (w : world) (lines : list string) (di : bool) (p : parameter) (a : subcommand_args)
    (h g : string) (args : list (string * subcommand_args)) (ns : parsing)
    (arg_string : string) :
  parse_param lines di p = Ok a ->
  type_ a = Some (TyObject AInt) \/ type_ a = Some (TyObject AFloat) ->
  help a = Some h ->
  OneOf.re_match h = Some g ->
  lookup_arg args (p_name p) = Some a ->
  exists e,
    consume w args ns (OccValue (p_name p) arg_string) = Raise e
    /\ exn_cls e = ArgumentError.
Proof.
  intros Hp Hty Hh Hm Hl.
  pose proof Hp as Hinv. apply parse_param_inv in Hinv.
  destruct Hinv as (i & Hi & _ & _ & Hact & Htype & Hhelp & Hc).
  rewrite Hh in Hhelp. symmetry in Hhelp.
  rewrite (help_and_choices_matched _ _ _ _ _ _ Hhelp Hm), choices_of_group_truthy in Hc.
  assert (Ha : action a = None).
  { rewrite Hact. apply (infer_action_excludes_type _ _ _ Hi).
    rewrite <- Htype. destruct Hty as [-> | ->]; discriminate. }
  pose proof (py_eq_number_string _ (choices_of_group_strings g)) as Hne.
  assert (Hr : exists e, consume w args ns (OccValue (p_name p) arg_string) = Raise e).
  { cbn [consume]. rewrite Hl, Ha.
    destruct Hty as [Ht | Ht]; rewrite Ht; cbn [get_value].
    - destruct (PyInt.int_base 10 arg_string) as [z|]; cbn [bind usage_error]; [|eauto].
      unfold check_value. rewrite Hc. destruct (Hne z FNaN) as [-> _].
      cbn [bind usage_error]. eauto.
    - destruct (float_of_text w arg_string) as [f|]; cbn [bind usage_error]; [|eauto].
      unfold check_value. rewrite Hc. destruct (Hne 0 f) as [_ ->].
      cbn [bind usage_error]. eauto. }
  destruct Hr as [e He]. exists e. split; [exact He|].
  exact (consume_error_class w args ns _ e He).
Qed.

Lemma X20_witness :
  exists e,
    consume quiet_world [("training_steps", training_steps_arg)]
      {| ns_verbose := 0; ns_attrs := ∅; ns_seen := [] |}
      (OccValue "training_steps" "500") = Raise e
    /\ exn_cls e = ArgumentError.
Proof.
  apply (X20_numeric_argument_with_help_choices_takes_no_value quiet_world
           training_steps_lines true training_steps_param training_steps_arg
           "Training steps, one of (500, 1000) [int]" "500, 1000"
           [("training_steps", training_steps_arg)]
           {| ns_verbose := 0; ns_attrs := ∅; ns_seen := [] |} "500").
  - vm_compute. reflexivity.
  - left. reflexivity.
  - reflexivity.
  - vm_compute. reflexivity.
  - reflexivity.
Defined.

(** * Identifiers from the command line to the call *)




Section Values.

Variable w : world.
Variable args : list (string * subcommand_args).










End Values.












